(** * SOCKS5 connector [lib_socks_proxy_2013_10_03/socks_proxy.py]

    A shallow embedding of [recv_all_into] and
    [socks_proxy_create_connection], and the properties of the handshake
    that the design document states about them.

    Python objects are represented by a small universe of values,
    exceptions by an inductive type, and the socket and the network by
    explicit state that the functions thread through an error/state
    monad.  The only loop of the program, in [recv_all_into], is bounded
    by a fuel argument; running out of fuel is a third outcome, distinct
    from returning and from raising. *)

From Stdlib Require Import ZArith NArith List String Ascii Bool Lia.
From Stdlib.Strings Require Import Byte.
From Stdlib Require HexadecimalString.
From stdpp Require Import gmap strings list.

Import ListNotations.
Local Open Scope string_scope.
Local Open Scope nat_scope.
Local Open Scope list_scope.

(** ** Python values *)

(** The values the connector inspects: its [address] argument may be any
    object, and the keyword arguments carry addresses and timeouts.  A
    [str] is its sequence of code points; a [float] is kept as an exact
    fraction (the program stores timeouts, it never computes with them). *)
#[warnings="-register-all"]
Inductive value : Type :=
| VNone
| VBool (b : bool)
| VInt (z : Z)
| VFloat (num : Z) (den : positive)
| VStr (s : list N)
| VBytes (bs : list byte)
| VTuple (items : list value)
| VList (items : list value).

(** Reasons for which the [struct] module raises [struct.error]. *)
Inductive struct_reason : Type :=
| BadChar          (* bad char in struct format *)
| RepeatCount      (* repeat count given without format specifier *)
| ItemCount        (* pack expected N items for packing *)
| NotAnInteger     (* required argument is not an integer *)
| OutOfRange       (* format requires lo <= number <= hi *)
| BufferSize.      (* unpack requires a buffer of N bytes *)

Inductive exn : Type :=
| KeyError (key : string)
| IndexError
| TypeError
| AssertionError
| AttributeError (attr : string)
| UnicodeEncodeError
| OSError
| StructError (why : struct_reason)
| ArgSocksProxyError (msg : string)
| FormatSocksProxyError (msg : string)
| AuthSocksProxyError (msg : string)
| ConnectSocksProxyError (msg : string).

(** ** Outcomes and the state monad *)

Inductive outcome (A : Type) : Type :=
| Return (a : A)
| Raise (e : exn)
| OutOfFuel.

Arguments Return {A} a.
Arguments Raise {A} e.
Arguments OutOfFuel {A}.

Definition M (St A : Type) : Type := St -> outcome A * St.

Definition ret {St A} (a : A) : M St A := fun st => (Return a, st).

Definition raise {St A} (e : exn) : M St A := fun st => (Raise e, st).

Definition bind {St A B} (m : M St A) (k : A -> M St B) : M St B :=
  fun st =>
    match m st with
    | (Return a, st') => k a st'
    | (Raise e, st') => (Raise e, st')
    | (OutOfFuel, st') => (OutOfFuel, st')
    end.

Notation "'let!' x ':=' m 'in' k" := (bind m (fun x => k))
  (at level 10, x name, m at level 100, k at level 200).
Notation "m '>>>' k" := (bind m (fun _ => k))
  (at level 90, right associativity).

(** A pure computation that may raise, run without touching the state. *)
Definition pure {St A} (r : exn + A) : M St A :=
  match r with
  | inl e => raise e
  | inr a => ret a
  end.

(** ** The stream

    The socket object comes from [monkey_patch.original_create_connection],
    which is not part of the module; its class is not fixed by the source. *)

(** Modelled from the spec: the class of [sock] is missing.  The design's
    Stream interface is used: [write(bytes)] writes all bytes, and
    [read(buffer)] places at most [len(buffer)] bytes into the buffer and
    returns how many (0 on peer close; possibly fewer than the buffer
    holds).  [incoming] is what the peer will deliver, in order;
    [fragments] caps what each successive read delivers (no cap once the
    list is used up; a cap below 1 counts as 1, a read returns 0 only
    when the peer has closed); an empty [incoming] is a closed peer.
    (This is the read that [recv_all_into] is written for: the buffer is
    passed and a count comes back.  The socket objects of the standard
    library have [recv_into] for it; their [recv] is [socket_recv]
    below.) *)
Record socket : Type := {
  incoming : list byte;
  fragments : list nat;
  sent : list byte;
  sockopts : list (string * string * Z);
  timeout : value
}.

(** [memoryview(buf)] and its slices: a window [obj[start:]] on the one
    underlying bytearray, which a read through the view mutates. *)
Record memoryview : Type := {
  mv_obj : list byte;
  mv_start : nat
}.

Definition mv_len (v : memoryview) : nat := length (mv_obj v) - mv_start v.

(** [v[k:]] for [k >= 0]. *)
Definition mv_slice_from (v : memoryview) (k : nat) : memoryview :=
  {| mv_obj := mv_obj v; mv_start := mv_start v + min k (mv_len v) |}.

Definition write_at (obj : list byte) (start : nat) (data : list byte) : list byte :=
  take start obj ++ data ++ drop (start + length data) obj.

(** Modelled from the spec: [read(buffer)] of the design's Stream, one
    read into the view.  It is what [sock.recv(buf)] of line 48 is on an
    object of that interface. *)
Definition sock_recv (buf : memoryview) (sock : socket)
  : nat * memoryview * socket :=
  let want := mv_len buf in
  let cap := match fragments sock with [] => want | c :: _ => max 1 c end in
  let data := take (min want cap) (incoming sock) in
  (length data,
   {| mv_obj := write_at (mv_obj buf) (mv_start buf) data;
      mv_start := mv_start buf |},
   {| incoming := drop (length data) (incoming sock);
      fragments := tail (fragments sock);
      sent := sent sock;
      sockopts := sockopts sock;
      timeout := timeout sock |}).

Definition sock_sendall (data : list byte) : M socket unit :=
  fun sock =>
    (Return tt,
     {| incoming := incoming sock;
        fragments := fragments sock;
        sent := sent sock ++ data;
        sockopts := sockopts sock;
        timeout := timeout sock |}).

Definition sock_setsockopt (level optname : string) (v : Z) : M socket unit :=
  fun sock =>
    (Return tt,
     {| incoming := incoming sock;
        fragments := fragments sock;
        sent := sent sock;
        sockopts := sockopts sock ++ [(level, optname, v)];
        timeout := timeout sock |}).

Definition bytearray (n : nat) : list byte := repeat x00 n.

(** ** [recv_all_into] (lines 41-48)

    [[
    def recv_all_into(sock, buf):
        buf = memoryview(buf)
        recv_res = 0
        while recv_res < len(buf):
            if recv_res > 0:
                buf = buf[recv_res:]
            recv_res = sock.recv(buf)
    ]]
    One unit of fuel pays for one iteration of the loop.  The function
    returns [None]; the embedding returns the final contents of the
    caller's bytearray, which the reads have filled in place. *)
Fixpoint recv_all_into_loop (fuel : nat) (buf : memoryview) (recv_res : nat)
    (sock : socket) : outcome (list byte) * socket :=
  if recv_res <? mv_len buf then
    match fuel with
    | O => (OutOfFuel, sock)
    | S fuel' =>
        let buf := if 0 <? recv_res then mv_slice_from buf recv_res else buf in
        let '(recv_res, buf, sock) := sock_recv buf sock in
        recv_all_into_loop fuel' buf recv_res sock
    end
  else (Return (mv_obj buf), sock).

Definition recv_all_into (fuel : nat) (buf : list byte) : M socket (list byte) :=
  fun sock =>
    recv_all_into_loop fuel {| mv_obj := buf; mv_start := 0 |} 0 sock.

(** ** The read as a method of the object

    [recv_all_into] calls [sock.recv(buf)] on whatever object it is
    given.  The loop below is the same loop with the method as a
    parameter; the method may raise. *)
Definition read_method : Type :=
  memoryview -> socket -> exn + (nat * memoryview * socket).

Fixpoint recv_all_into_loop_with (recv : read_method) (fuel : nat)
    (buf : memoryview) (recv_res : nat) (sock : socket)
  : outcome (list byte) * socket :=
  if recv_res <? mv_len buf then
    match fuel with
    | O => (OutOfFuel, sock)
    | S fuel' =>
        let buf := if 0 <? recv_res then mv_slice_from buf recv_res else buf in
        match recv buf sock with
        | inl e => (Raise e, sock)
        | inr (recv_res, buf, sock) =>
            recv_all_into_loop_with recv fuel' buf recv_res sock
        end
    end
  else (Return (mv_obj buf), sock).

Definition recv_all_into_with (recv : read_method) (fuel : nat)
    (buf : list byte) : M socket (list byte) :=
  fun sock =>
    recv_all_into_loop_with recv fuel {| mv_obj := buf; mv_start := 0 |} 0 sock.

(** The read of the design's Stream, [sock_recv]. *)
Definition stream_read : read_method :=
  fun buf sock => inr (sock_recv buf sock).

(** The socket objects of the standard library, which the call gets
    from the dial and on which it calls [setsockopt] and [sendall]:
    [recv(bufsize[, flags])] takes a byte count and returns the bytes
    read.  A buffer in the place of the count cannot be interpreted as
    an integer: the call raises [TypeError] before anything is read. *)
Inductive recv_argument : Type :=
| Bufsize (n : nat)
| Buffer (view : memoryview).

Definition socket_recv (arg : recv_argument) (sock : socket)
  : exn + (list byte * socket) :=
  match arg with
  | Buffer _ => inl TypeError
  | Bufsize n =>
      let cap := match fragments sock with [] => n | c :: _ => max 1 c end in
      let data := take (min n cap) (incoming sock) in
      inr (data,
           {| incoming := drop (length data) (incoming sock);
              fragments := tail (fragments sock);
              sent := sent sock;
              sockopts := sockopts sock;
              timeout := timeout sock |})
  end.

(** [sock.recv(buf)] as line 48 writes it, on such a socket.  (Were a
    [bytes] object to come back, the test [recv_res < len(buf)] of the
    loop would raise [TypeError] in its turn.) *)
Definition socket_read : read_method :=
  fun buf sock =>
    match socket_recv (Buffer buf) sock with
    | inl e => inl e
    | inr _ => inl TypeError
    end.

(** ** The [struct] module

    The part of CPython's [struct] that the program calls: a format is an
    optional byte-order character followed by format codes, each with an
    optional repeat count, white space being skipped between items.  The
    byte-order character is recognised in the first position only; at
    any later position [!] is looked up as a format code, is not one, and
    the call raises [struct.error] (bad char in struct format).  The
    table holds the two codes the program uses, [B] (unsigned byte) and
    [H] (unsigned 16-bit). *)
Inductive byte_order : Type := BigEndian | LittleEndian.

Inductive format_code : Type := CodeB | CodeH.

Definition is_space (c : ascii) : bool :=
  let n := nat_of_ascii c in
  (n =? 32) || ((9 <=? n) && (n <=? 13)).

Definition digit_of (c : ascii) : option nat :=
  let n := nat_of_ascii c in
  if (48 <=? n) && (n <=? 57) then Some (n - 48) else None.

Definition getentry (c : ascii) : option format_code :=
  if Ascii.eqb c "B" then Some CodeB
  else if Ascii.eqb c "H" then Some CodeH
  else None.

(** The first character selects the byte order ([@], [=] and no mark are
    the native modes; their alignment is not modelled, the program does
    not use them). *)
Definition whichtable (fmt : list ascii) : byte_order * list ascii :=
  match fmt with
  | c :: rest =>
      if Ascii.eqb c "!" || Ascii.eqb c ">" then (BigEndian, rest)
      else if Ascii.eqb c "<" || Ascii.eqb c "=" || Ascii.eqb c "@"
      then (LittleEndian, rest)
      else (LittleEndian, fmt)
  | [] => (LittleEndian, [])
  end.

(** The codes of a format, after the byte-order mark.  [count] is the
    repeat count read so far, if any. *)
Fixpoint parse_codes (fmt : list ascii) (count : option nat)
  : exn + list format_code :=
  match fmt with
  | [] =>
      match count with
      | None => inr []
      | Some _ => inl (StructError RepeatCount)
      end
  | c :: rest =>
      match digit_of c with
      | Some d =>
          parse_codes rest (Some (10 * default 0 count + d))
      | None =>
          if is_space c && negb (bool_decide (is_Some count))
          then parse_codes rest None
          else
            match getentry c with
            | None => inl (StructError BadChar)
            | Some code =>
                match parse_codes rest None with
                | inl e => inl e
                | inr codes => inr (repeat code (default 1 count) ++ codes)
                end
            end
      end
  end.

Definition parse_format (fmt : string) : exn + (byte_order * list format_code) :=
  let '(order, rest) := whichtable (list_ascii_of_string fmt) in
  match parse_codes rest None with
  | inl e => inl e
  | inr codes => inr (order, codes)
  end.

Definition code_size (c : format_code) : nat :=
  match c with CodeB => 1 | CodeH => 2 end.

Definition byte_of_Z (z : Z) : byte :=
  default x00 (Byte.of_N (Z.to_N (z mod 256))).

Definition Z_of_byte (b : byte) : Z := Z.of_N (Byte.to_N b).

(** An argument of [pack] must be an integer ([bool] is one). *)
Definition as_integer (v : value) : exn + Z :=
  match v with
  | VInt z => inr z
  | VBool b => inr (if b then 1 else 0)%Z
  | _ => inl (StructError NotAnInteger)
  end.

Definition pack_one (order : byte_order) (c : format_code) (v : value)
  : exn + list byte :=
  match as_integer v with
  | inl e => inl e
  | inr z =>
      match c with
      | CodeB =>
          if ((0 <=? z) && (z <=? 255))%Z then inr [byte_of_Z z]
          else inl (StructError OutOfRange)
      | CodeH =>
          if ((0 <=? z) && (z <=? 65535))%Z then
            let hi := byte_of_Z (z / 256) in
            let lo := byte_of_Z z in
            inr (match order with
                 | BigEndian => [hi; lo]
                 | LittleEndian => [lo; hi]
                 end)
          else inl (StructError OutOfRange)
      end
  end.

Fixpoint pack_all (order : byte_order) (codes : list format_code)
    (vals : list value) : exn + list byte :=
  match codes, vals with
  | [], [] => inr []
  | c :: codes', v :: vals' =>
      match pack_one order c v with
      | inl e => inl e
      | inr bs =>
          match pack_all order codes' vals' with
          | inl e => inl e
          | inr rest => inr (bs ++ rest)
          end
      end
  | _, _ => inl (StructError ItemCount)
  end.

(** [struct.pack(fmt, *vals)]: the format is compiled first, then the
    number of arguments is checked, then each argument is converted. *)
Definition struct_pack (fmt : string) (vals : list value) : exn + list byte :=
  match parse_format fmt with
  | inl e => inl e
  | inr (order, codes) =>
      if length codes =? length vals then pack_all order codes vals
      else inl (StructError ItemCount)
  end.

Fixpoint unpack_all (order : byte_order) (codes : list format_code)
    (buf : list byte) : list Z :=
  match codes with
  | [] => []
  | CodeB :: codes' =>
      match buf with
      | b :: buf' => Z_of_byte b :: unpack_all order codes' buf'
      | [] => []
      end
  | CodeH :: codes' =>
      match buf with
      | b1 :: b2 :: buf' =>
          (match order with
           | BigEndian => Z_of_byte b1 * 256 + Z_of_byte b2
           | LittleEndian => Z_of_byte b2 * 256 + Z_of_byte b1
           end)%Z :: unpack_all order codes' buf'
      | _ => []
      end
  end.

(** [struct.unpack(fmt, buf)]: a tuple of integers. *)
Definition struct_unpack (fmt : string) (buf : list byte) : exn + list Z :=
  match parse_format fmt with
  | inl e => inl e
  | inr (order, codes) =>
      if length buf =? list_sum (map code_size codes)
      then inr (unpack_all order codes buf)
      else inl (StructError BufferSize)
  end.

(** [t[i]] on a tuple of integers. *)
Definition item (t : list Z) (i : nat) : exn + Z :=
  match t !! i with
  | Some z => inr z
  | None => inl IndexError
  end.

(** ** Operations on values *)

Definition isinstance_tuple_or_list (v : value) : bool :=
  match v with VTuple _ | VList _ => true | _ => false end.

Definition isinstance_str (v : value) : bool :=
  match v with VStr _ => true | _ => false end.

(** [bool] is a subclass of [int]. *)
Definition isinstance_int (v : value) : bool :=
  match v with VInt _ | VBool _ => true | _ => false end.

Definition is_None (v : value) : bool :=
  match v with VNone => true | _ => false end.

Definition py_len (v : value) : exn + nat :=
  match v with
  | VTuple items | VList items => inr (length items)
  | VStr s => inr (length s)
  | VBytes bs => inr (length bs)
  | _ => inl TypeError
  end.

Definition py_getitem (v : value) (i : nat) : exn + value :=
  match v with
  | VTuple items | VList items =>
      match items !! i with
      | Some x => inr x
      | None => inl IndexError
      end
  | VStr s =>
      match s !! i with
      | Some c => inr (VStr [c])
      | None => inl IndexError
      end
  | VBytes bs =>
      match bs !! i with
      | Some b => inr (VInt (Z_of_byte b))
      | None => inl IndexError
      end
  | _ => inl TypeError
  end.

Definition py_assert {St} (b : bool) : M St unit :=
  if b then ret tt else raise AssertionError.

(** UTF-8 of one code point; surrogates cannot be encoded. *)
Definition utf8_encode_point (c : N) : option (list byte) :=
  let b (n : N) := default x00 (Byte.of_N n) in
  if (c <? 0x80)%N then Some [b c]
  else if (c <? 0x800)%N then
    Some [b (0xC0 + c / 0x40); b (0x80 + c mod 0x40)]%N
  else if (c <? 0x10000)%N then
    if ((0xD800 <=? c) && (c <=? 0xDFFF))%N then None
    else Some [b (0xE0 + c / 0x1000); b (0x80 + (c / 0x40) mod 0x40);
               b (0x80 + c mod 0x40)]%N
  else if (c <=? 0x10FFFF)%N then
    Some [b (0xF0 + c / 0x40000); b (0x80 + (c / 0x1000) mod 0x40);
          b (0x80 + (c / 0x40) mod 0x40); b (0x80 + c mod 0x40)]%N
  else None.

Fixpoint utf8_encode (s : list N) : option (list byte) :=
  match s with
  | [] => Some []
  | c :: s' =>
      match utf8_encode_point c, utf8_encode s' with
      | Some bs, Some rest => Some (bs ++ rest)
      | _, _ => None
      end
  end.

(** [v.encode()]: defined on [str] (default encoding UTF-8). *)
Definition str_encode (v : value) : exn + list byte :=
  match v with
  | VStr s =>
      match utf8_encode s with
      | Some bs => inr bs
      | None => inl UnicodeEncodeError
      end
  | _ => inl (AttributeError "encode")
  end.

(** A [str] literal of ASCII characters. *)
Definition str (s : string) : value :=
  VStr (map (fun a => N_of_ascii a) (list_ascii_of_string s)).

(** [hex(z)]. *)
Definition py_hex (z : Z) : string :=
  let digits := HexadecimalString.NilZero.string_of_uint (N.to_hex_uint (Z.abs_N z)) in
  if (z <? 0)%Z then "-0x" +:+ digits else "0x" +:+ digits.

(** [repr] of a [str] that has no quote, backslash or non-printable
    character, which is what the program formats. *)
Definition repr_str (s : string) : string := "'" +:+ s +:+ "'".

(** ** The network *)

Definition DEFAULT_PROXY_TIMEOUT : value := VFloat 60 1.

(** The world of one call: whether the connector has been installed
    ([monkey_patch.assert_patched]), whether the proxy can be reached, the
    calls made to the dial adapter, and the connection to the proxy.
    Before the dial [conn] describes the connection that a dial would
    open. *)
Record world : Type := {
  patched : bool;
  reachable : bool;
  dials : list (value * gmap string value);
  conn : socket
}.

Definition on_sock {A} (m : M socket A) : M world A :=
  fun w =>
    let '(r, s) := m (conn w) in
    (r, {| patched := patched w; reachable := reachable w;
           dials := dials w; conn := s |}).

Definition sock_settimeout (t : value) : M socket unit :=
  fun sock =>
    (Return tt,
     {| incoming := incoming sock;
        fragments := fragments sock;
        sent := sent sock;
        sockopts := sockopts sock;
        timeout := t |}).

(** Modelled from the spec: [monkey_patch.assert_patched] is missing; it
    is taken as an assertion that the connector has been installed. *)
Definition assert_patched : M world unit :=
  fun w => py_assert (patched w) w.

(** Modelled from the spec: [monkey_patch.original_create_connection] is
    missing.  It is the dial adapter [dial(endpoint, timeout,
    source_address) -> Stream]: it opens the stream to the proxy and
    applies the timeout option to it, or fails with a transport error. *)
Definition original_create_connection (proxy_address : value)
    (proxy_kwargs : gmap string value) : M world unit :=
  fun w =>
    let w' := {| patched := patched w; reachable := reachable w;
                 dials := dials w ++ [(proxy_address, proxy_kwargs)];
                 conn := conn w |} in
    if reachable w then
      match proxy_kwargs !! "timeout" with
      | Some t => on_sock (sock_settimeout t) w'
      | None => (Return tt, w')
      end
    else (Raise OSError, w').

(** [socket.settimeout(timeout)] on line 196 names the [socket] module,
    not the object [sock].  The module has [setdefaulttimeout] and
    [getdefaulttimeout]; [settimeout] is a method of socket objects, and
    looking it up on the module raises [AttributeError]. *)
Definition socket_module_settimeout (t : value) : M world unit :=
  raise (AttributeError "settimeout").

(** ** [socks_proxy_create_connection] (lines 52-198)

    The body is cut where its own comments and blank lines cut it:
    argument check, greeting phase, command phase (request, then reply
    header), reply address, end phase.

    Three format strings of the body repeat the byte-order mark before
    every code.  The phases are written over a record of these formats,
    and the functions of the source are the phases at [source_formats],
    the literals of the source.  [single_mark_formats] writes the mark
    once; it is used only to tell what the rest of each phase does. *)
Record formats : Type := {
  greeting_fmt : string;   (* line 90 *)
  header_fmt : string;     (* lines 98, 133 and 167 *)
  request_fmt : string     (* line 115 *)
}.

Definition source_formats : formats :=
  {| greeting_fmt := "!B!B!B";
     header_fmt := "!B!B";
     request_fmt := "!B!B!B!B!B" |}.

Definition single_mark_formats : formats :=
  {| greeting_fmt := "!BBB";
     header_fmt := "!BB";
     request_fmt := "!BBBBB" |}.

(** Lines 65-68, the condition under which [ArgSocksProxyError] is raised:
    [[
    not isinstance(address, (tuple, list)) or len(address) != 2 or
    not isinstance(address[0], str) or not isinstance(address[1], int)
    ]] *)
Definition address_rejected (address : value) : bool :=
  match address with
  | VTuple items | VList items =>
      if negb (length items =? 2) then true
      else
        match items with
        | [host; port] => negb (isinstance_str host) || negb (isinstance_int port)
        | _ => true
        end
  | _ => true
  end.

(** Lines 89-104, the greeting phase. *)
Definition greeting_phase_with (fm : formats) (fuel : nat) : M socket unit :=
  let! data := pure (struct_pack (greeting_fmt fm)
                       [VInt 0x05;  (* SOCKS version number *)
                        VInt 0x01;  (* number of authentication methods *)
                        VInt 0x00   (* no authentication *)]) in
  sock_sendall data >>>
  let! recv_data := recv_all_into fuel (bytearray 2) in
  let! recv_data := pure (struct_unpack (header_fmt fm) recv_data) in
  let! ver := pure (item recv_data 0) in
  if negb (ver =? 0x05)%Z then
    raise (FormatSocksProxyError
             "invalid socks-proxy format (socks5: greeting phase)")
  else
    let! method := pure (item recv_data 1) in
    if negb (method =? 0x00)%Z then
      raise (AuthSocksProxyError
               "invalid socks-proxy authorization (socks5: greeting phase)")
    else ret tt.

Definition greeting_phase : nat -> M socket unit :=
  greeting_phase_with source_formats.

(** Lines 108-129, the command phase: the CONNECT request. *)
Definition command_request_with (fm : formats) (address : value)
  : M socket unit :=
  let! n := pure (py_len address) in
  py_assert (n =? 2) >>>
  let! address_0 := pure (py_getitem address 0) in
  py_assert (isinstance_str address_0) >>>
  let! address_1 := pure (py_getitem address 1) in
  py_assert (isinstance_int address_1) >>>
  let! host_bytes := pure (str_encode address_0) in
  let! head := pure (struct_pack (request_fmt fm)
                       [VInt 0x05;  (* SOCKS version number *)
                        VInt 0x01;  (* establish a TCP/IP stream connection *)
                        VInt 0x00;  (* reserved *)
                        VInt 0x03;  (* address type: domain name *)
                        VInt (Z.of_nat (length host_bytes))]) in
  let! port := pure (struct_pack "!H" [address_1]) in
  sock_sendall (head ++ host_bytes ++ port).

Definition command_request : value -> M socket unit :=
  command_request_with source_formats.

(** Lines 139-158: the description of a non-zero status.  (The first
    assignment, of the status itself, is overwritten on every branch.) *)
Definition error_descr (status : Z) : string :=
  if (status =? 0x01)%Z then "general failure"
  else if (status =? 0x02)%Z then "connection not allowed by ruleset"
  else if (status =? 0x03)%Z then "network unreachable"
  else if (status =? 0x04)%Z then "host unreachable"
  else if (status =? 0x05)%Z then "connection refused by destination host"
  else if (status =? 0x06)%Z then "TTL expired"
  else if (status =? 0x07)%Z then "command not supported / protocol error"
  else if (status =? 0x08)%Z then "address type not supported"
  else py_hex status.

(** Lines 160-163: the message of [ConnectSocksProxyError]; the
    description of a status is formatted with [{!r}]. *)
Definition connect_error_message (descr : string) : string :=
  "socks-proxy can not create connection: " +:+ repr_str descr
  +:+ " (socks5: command phase)".

(** Lines 131-163, the command phase: the reply header. *)
Definition command_reply_with (fm : formats) (fuel : nat) : M socket unit :=
  let! recv_data := recv_all_into fuel (bytearray 2) in
  let! recv_data := pure (struct_unpack (header_fmt fm) recv_data) in
  let! ver := pure (item recv_data 0) in
  if negb (ver =? 0x05)%Z then
    raise (FormatSocksProxyError
             "invalid socks-proxy format (socks5: command phase)")
  else
    let! status := pure (item recv_data 1) in
    if negb (status =? 0x00)%Z then
      raise (ConnectSocksProxyError (connect_error_message (error_descr status)))
    else ret tt.

Definition command_reply : nat -> M socket unit :=
  command_reply_with source_formats.

(** Lines 165-191, the address and port of the reply, read and dropped. *)
Definition reply_address_drain_with (fm : formats) (fuel : nat)
  : M socket unit :=
  let! recv_data := recv_all_into fuel (bytearray 2) in
  let! recv_data := pure (struct_unpack (header_fmt fm) recv_data) in
  let! atyp := pure (item recv_data 1) in
  (if (atyp =? 0x01)%Z then
     let! host_recv_data := recv_all_into fuel (bytearray 4) in ret tt
   else if (atyp =? 0x03)%Z then
     let! host_len_recv_data := recv_all_into fuel (bytearray 1) in
     let! host_len_recv_data := pure (struct_unpack "!B" host_len_recv_data) in
     let! host_len := pure (item host_len_recv_data 0) in
     let! host_recv_data := recv_all_into fuel (bytearray (Z.to_nat host_len)) in
     ret tt
   else if (atyp =? 0x04)%Z then
     let! host_recv_data := recv_all_into fuel (bytearray 16) in ret tt
   else
     raise (FormatSocksProxyError
              "invalid socks-proxy format (socks5: command phase)")) >>>
  let! port_recv_data := recv_all_into fuel (bytearray 2) in
  let! recv_data := pure (struct_unpack "!H" port_recv_data) in
  ret tt.

Definition reply_address_drain : nat -> M socket unit :=
  reply_address_drain_with source_formats.

(** Lines 195-198, the end phase.  [timeout] is [None] when the caller
    left the parameter at its default, the private sentinel object.  The
    function returns [sock]: the connection of the final world. *)
Definition end_phase (timeout : option value) : M world unit :=
  match timeout with
  | Some t => socket_module_settimeout t >>> ret tt
  | None => ret tt
  end.

(** [kwargs[key]] and [kwargs.get(key)]. *)
Definition kwargs_getitem (kwargs : gmap string value) (key : string)
  : exn + value :=
  match kwargs !! key with
  | Some v => inr v
  | None => inl (KeyError key)
  end.

Definition kwargs_get (kwargs : gmap string value) (key : string) : value :=
  default VNone (kwargs !! key).

(** Lines 74-82: the keyword arguments of the dial. *)
Definition make_proxy_kwargs (proxy_timeout proxy_source_address : value)
  : gmap string value :=
  let proxy_kwargs : gmap string value := ∅ in
  let proxy_kwargs :=
    if negb (is_None proxy_timeout)
    then <["timeout" := proxy_timeout]> proxy_kwargs
    else <["timeout" := DEFAULT_PROXY_TIMEOUT]> proxy_kwargs in
  if negb (is_None proxy_source_address)
  then <["source_address" := proxy_source_address]> proxy_kwargs
  else proxy_kwargs.

(** The call.  [source_address] is accepted and not used; line 73 binds
    [hostname] and [port], which the rest of the body does not read (it
    indexes [address] again). *)
Definition socks_proxy_create_connection_with (fm : formats) (fuel : nat)
    (address : value) (timeout source_address : option value)
    (kwargs : gmap string value) : M world unit :=
  assert_patched >>>
  let! proxy_address := pure (kwargs_getitem kwargs "proxy_address") in
  let proxy_timeout := kwargs_get kwargs "proxy_timeout" in
  let proxy_source_address := kwargs_get kwargs "proxy_source_address" in
  py_assert (negb (is_None proxy_address)) >>>
  if address_rejected address then
    raise (ArgSocksProxyError
      "address of connection must be tuple: hostname (str) and port (int)")
  else
    let proxy_kwargs := make_proxy_kwargs proxy_timeout proxy_source_address in
    original_create_connection proxy_address proxy_kwargs >>>
    on_sock (sock_setsockopt "SOL_SOCKET" "SO_KEEPALIVE" 1) >>>
    on_sock (greeting_phase_with fm fuel) >>>
    on_sock (command_request_with fm address) >>>
    on_sock (command_reply_with fm fuel) >>>
    on_sock (reply_address_drain_with fm fuel) >>>
    end_phase timeout.

Definition socks_proxy_create_connection
  : nat -> value -> option value -> option value -> gmap string value
    -> M world unit :=
  socks_proxy_create_connection_with source_formats.

(** ** Vocabulary of the statements *)

(** Every read that the stream still has a cap for delivers at least one
    byte. *)
Definition positive_fragments (sock : socket) : Prop :=
  Forall (fun c => 0 < c) (fragments sock).

(** A target of the shape the design asks for, as far as types go: a
    tuple or list of two items, a [str] and an [int]. *)
Definition target_shape (address : value) : Prop :=
  exists host port,
    (address = VTuple [host; port] \/ address = VList [host; port])
    /\ (exists s, host = VStr s)
    /\ ((exists z, port = VInt z) \/ (exists b, port = VBool b)).

(** The world after the dial, and after keep-alive has been switched on. *)
Definition dialed (proxy_address : value) (proxy_kwargs : gmap string value)
    (w : world) : world :=
  snd (original_create_connection proxy_address proxy_kwargs w).

Definition keepalive_on (w : world) : world :=
  snd (on_sock (sock_setsockopt "SOL_SOCKET" "SO_KEEPALIVE" 1) w).

(** A fresh stream on which the peer delivers [data] in the given
    fragments, and a world in which the proxy answers with that stream. *)
Definition stream (data : list byte) (frags : list nat) : socket :=
  {| incoming := data; fragments := frags; sent := []; sockopts := [];
     timeout := VNone |}.

Definition proxy_world (data : list byte) : world :=
  {| patched := true; reachable := true; dials := [];
     conn := stream data [] |}.

Definition local_proxy : value := VTuple [str "127.0.0.1"; VInt 1080].

Definition proxy_config : gmap string value :=
  {[ "proxy_address" := local_proxy ]}.

(** The size of what follows the two-byte header of the reply address,
    in the words of the design: 4 + 2 bytes for IPv4, 1 + L + 2 for a
    domain name whose length byte is L, 16 + 2 for IPv6, and no size for
    any other address type. *)
Definition reply_address_size (atyp : Z) (after : list byte) : option nat :=
  if (atyp =? 0x01)%Z then Some (4 + 2)
  else if (atyp =? 0x03)%Z then
    Some (1 + Z.to_nat (Z_of_byte (hd x00 after)) + 2)
  else if (atyp =? 0x04)%Z then Some (16 + 2)
  else None.

(** The body of the call after the dial (lines 85-198), over a record of
    formats. *)
Definition after_dial_with (fm : formats) (fuel : nat) (address : value)
    (timeout : option value) : M world unit :=
  on_sock (sock_setsockopt "SOL_SOCKET" "SO_KEEPALIVE" 1) >>>
  on_sock (greeting_phase_with fm fuel) >>>
  on_sock (command_request_with fm address) >>>
  on_sock (command_reply_with fm fuel) >>>
  on_sock (reply_address_drain_with fm fuel) >>>
  end_phase timeout.

(** A computation that never ends with [ArgSocksProxyError], one that
    never returns, and one that leaves the record of the dials alone. *)
Definition raises_no_argument_error {St A} (m : M St A) : Prop :=
  forall st msg, fst (m st) <> Raise (ArgSocksProxyError msg).

Definition never_returns {St A} (m : M St A) : Prop :=
  forall st a, fst (m st) <> Return a.

Definition keeps_dials {A} (m : M world A) : Prop :=
  forall w, dials (snd (m w)) = dials w.

Definition is_argument_error (e : exn) : bool :=
  match e with ArgSocksProxyError _ => true | _ => false end.

(** Lines 26-39: the four errors of the module derive from
    [SocksProxyError]; [isinstance(e, SocksProxyError)]. *)
Definition isinstance_SocksProxyError (e : exn) : bool :=
  match e with
  | ArgSocksProxyError _ | FormatSocksProxyError _
  | AuthSocksProxyError _ | ConnectSocksProxyError _ => true
  | _ => false
  end.

(** * Properties *)

(** ** The exact-read loop *)

Section RecvAllInto.

Implicit Types (fuel start r : nat) (obj buf : list byte) (sock : socket).

Lemma recv_all_into_loop_done fuel obj start r sock :
  length obj - start <= r ->
  recv_all_into_loop fuel {| mv_obj := obj; mv_start := start |} r sock
  = (Return obj, sock).
Proof.
  intros Hfull.
  assert (Hc : (r <? mv_len {| mv_obj := obj; mv_start := start |}) = false).
  { apply Nat.ltb_ge. unfold mv_len. simpl. lia. }
  destruct fuel; simpl; rewrite Hc; reflexivity.
Qed.

Lemma recv_all_into_loop_step fuel obj start r sock :
  r < length obj - start ->
  recv_all_into_loop (S fuel) {| mv_obj := obj; mv_start := start |} r sock
  = let '(r', buf', sock') :=
      sock_recv {| mv_obj := obj; mv_start := start + r |} sock in
    recv_all_into_loop fuel buf' r' sock'.
Proof.
  intros Hlt.
  assert (Hc : (r <? mv_len {| mv_obj := obj; mv_start := start |}) = true).
  { apply Nat.ltb_lt. unfold mv_len. simpl. lia. }
  simpl recv_all_into_loop. rewrite Hc.
  destruct (0 <? r) eqn:Hr.
  - unfold mv_slice_from, mv_len. simpl mv_obj. simpl mv_start.
    replace (r `min` (length obj - start)) with r by lia. reflexivity.
  - apply Nat.ltb_ge in Hr. replace r with 0 by lia.
    rewrite Nat.add_0_r. reflexivity.
Qed.

Lemma length_write_at obj start data :
  start + length data <= length obj ->
  length (write_at obj start data) = length obj.
Proof.
  intros H. unfold write_at.
  rewrite !length_app, length_take, length_drop. lia.
Qed.

Lemma take_write_at obj start data :
  start + length data <= length obj ->
  take (start + length data) (write_at obj start data) = take start obj ++ data.
Proof.
  intros H. unfold write_at.
  rewrite app_assoc.
  apply take_app_length'.
  rewrite length_app, length_take. lia.
Qed.

Lemma recv_all_into_loop_fill fuel : forall obj start r sock,
  start + r <= length obj ->
  length obj - (start + r) <= length (incoming sock) ->
  positive_fragments sock ->
  length obj - (start + r) <= fuel ->
  exists sock',
    recv_all_into_loop fuel {| mv_obj := obj; mv_start := start |} r sock
    = (Return (take (start + r) obj
               ++ take (length obj - (start + r)) (incoming sock)), sock')
    /\ incoming sock' = drop (length obj - (start + r)) (incoming sock)
    /\ sent sock' = sent sock
    /\ sockopts sock' = sockopts sock
    /\ timeout sock' = timeout sock
    /\ positive_fragments sock'.
Proof.
  induction fuel as [|fuel IH]; intros obj start r sock Hle Hin Hpos Hfuel.
  - exists sock. rewrite recv_all_into_loop_done by lia.
    replace (length obj - (start + r)) with 0 by lia.
    rewrite take_ge by lia. rewrite take_0, app_nil_r, drop_0. repeat split; auto.
  - destruct (decide (length obj - start <= r)) as [Hfull|Hmore].
    + exists sock. rewrite recv_all_into_loop_done by lia.
      replace (length obj - (start + r)) with 0 by lia.
      rewrite take_ge by lia. rewrite take_0, app_nil_r, drop_0. repeat split; auto.
    + rewrite recv_all_into_loop_step by lia.
      unfold sock_recv. unfold mv_len; simpl mv_obj; simpl mv_start.
      remember (length obj - (start + r)) as n eqn:Hn.
      remember (match fragments sock with [] => n | c :: _ => max 1 c end) as cap
        eqn:Hcapdef.
      remember (take (n `min` cap) (incoming sock)) as data eqn:Hdata.
      assert (Hcap : 0 < cap).
      { destruct (fragments sock) as [|c cs] eqn:Hf; subst cap; lia. }
      assert (Hk : length data = n `min` cap).
      { subst data. rewrite length_take. lia. }
      assert (Hk1 : 0 < length data <= n) by lia.
      destruct (IH (write_at obj (start + r) data) (start + r) (length data)
                  {| incoming := drop (length data) (incoming sock);
                     fragments := tail (fragments sock);
                     sent := sent sock; sockopts := sockopts sock;
                     timeout := timeout sock |})
        as (sock' & Hrun & Hinc & Hsent & Hopts & Htime & Hpos').
      * rewrite length_write_at by lia. lia.
      * rewrite length_write_at by lia. simpl. rewrite length_drop. lia.
      * unfold positive_fragments in *. simpl.
        destruct (fragments sock); simpl; [constructor|].
        inversion Hpos; assumption.
      * rewrite length_write_at by lia. lia.
      * exists sock'. rewrite Hrun. simpl in Hinc.
        assert (Hlen : length (write_at obj (start + r) data) = length obj)
          by (apply length_write_at; lia).
        rewrite Hlen in *.
        rewrite take_write_at by lia.
        replace (length obj - (start + r + length data)) with (n - length data) in * by lia.
        rewrite Hinc, drop_drop.
        replace (length data + (n - length data)) with n by lia.
        repeat split; auto.
        f_equal. rewrite <- app_assoc. f_equal. simpl incoming.
        subst data. rewrite Hk.
        rewrite take_take_drop.
        replace (n `min` cap + (n - n `min` cap)) with n by lia. reflexivity.
Qed.

Lemma recv_all_into_loop_starved fuel : forall obj start r sock,
  start + r <= length obj ->
  length (incoming sock) < length obj - (start + r) ->
  fst (recv_all_into_loop fuel {| mv_obj := obj; mv_start := start |} r sock)
  = OutOfFuel.
Proof.
  induction fuel as [|fuel IH]; intros obj start r sock Hle Hshort.
  - simpl. unfold mv_len. simpl.
    destruct (r <? length obj - start) eqn:Hc; [reflexivity|].
    apply Nat.ltb_ge in Hc. lia.
  - rewrite recv_all_into_loop_step by lia.
    unfold sock_recv. unfold mv_len; simpl mv_obj; simpl mv_start.
    remember (length obj - (start + r)) as n eqn:Hn.
    remember (match fragments sock with [] => n | c :: _ => max 1 c end) as cap.
    remember (take (n `min` cap) (incoming sock)) as data eqn:Hdata.
    assert (Hk : length data <= length (incoming sock)).
    { subst data. rewrite length_take. lia. }
    apply IH.
    + rewrite length_write_at by lia. lia.
    + rewrite length_write_at by lia. simpl. rewrite length_drop. lia.
Qed.

Lemma recv_all_into_loop_S fuel (view : memoryview) r sock :
  recv_all_into_loop (S fuel) view r sock
  = if r <? mv_len view then
      let '(r', view', sock') :=
        sock_recv (if 0 <? r then mv_slice_from view r else view) sock in
      recv_all_into_loop fuel view' r' sock'
    else (Return (mv_obj view), sock).
Proof. reflexivity. Qed.

Lemma recv_all_into_loop_never_raises fuel :
  forall (view : memoryview) r sock e,
  fst (recv_all_into_loop fuel view r sock) <> Raise e.
Proof.
  induction fuel as [|fuel IH]; intros view r sock e.
  - simpl. destruct (r <? mv_len view); simpl; discriminate.
  - rewrite recv_all_into_loop_S.
    destruct (r <? mv_len view); [|simpl; discriminate].
    destruct (sock_recv (if 0 <? r then mv_slice_from view r else view) sock)
      as [[r' view'] sock'].
    apply IH.
Qed.

End RecvAllInto.

(** On the design's Stream, whose read takes the buffer and returns a
    count: when every read delivers at least one byte and the stream
    holds at least [len(buf)] more bytes, the loop returns (any fuel of
    at least [len(buf)] is enough) with the buffer holding exactly the
    next [len(buf)] bytes of the stream, in order; exactly those bytes
    have been consumed, and nothing has been written. *)
Lemma recv_all_into_stream_fill (fuel : nat) (buf : list byte)
    (sock : socket) :
  positive_fragments sock ->
  length buf <= length (incoming sock) ->
  length buf <= fuel ->
  exists sock',
    recv_all_into fuel buf sock
    = (Return (take (length buf) (incoming sock)), sock')
    /\ incoming sock' = drop (length buf) (incoming sock)
    /\ sent sock' = sent sock.
Proof.
  intros Hpos Hlen Hfuel. unfold recv_all_into.
  destruct (recv_all_into_loop_fill fuel buf 0 0 sock)
    as (sock' & Hrun & Hinc & Hsent & _); simpl; try lia; try assumption.
  exists sock'. rewrite Hrun. simpl in *.
  rewrite Nat.sub_0_r in *. auto.
Qed.

(** One byte per read, four reads, a buffer of four bytes. *)
Example recv_all_into_stream_one_byte_reads :
  exists sock',
    recv_all_into 4 (bytearray 4)
      (stream [x0a; x0b; x0c; x0d; x0e] [1; 1; 1; 1; 1])
    = (Return [x0a; x0b; x0c; x0d], sock')
    /\ incoming sock' = [x0e]
    /\ sent sock' = [].
Proof. eexists. vm_compute. auto. Qed.

(** [recv_all_into] is the loop over the read of the Stream. *)
Lemma recv_all_into_loop_with_stream_read (fuel : nat) :
  forall buf recv_res sock,
    recv_all_into_loop_with stream_read fuel buf recv_res sock
    = recv_all_into_loop fuel buf recv_res sock.
Proof.
  induction fuel as [|fuel IH]; intros buf recv_res sock; simpl.
  - reflexivity.
  - destruct (recv_res <? mv_len buf); [|reflexivity].
    unfold stream_read.
    destruct (sock_recv (if 0 <? recv_res then mv_slice_from buf recv_res
                         else buf) sock) as [[r view] sock'].
    apply IH.
Qed.

Lemma recv_all_into_with_stream_read (fuel : nat) (buf : list byte)
    (sock : socket) :
  recv_all_into_with stream_read fuel buf sock = recv_all_into fuel buf sock.
Proof. apply recv_all_into_loop_with_stream_read. Qed.

(** A socket of the standard library does read by count, at any
    fragmentation: [recv(4)] on a stream that delivers one byte per
    read. *)
Example socket_recv_bufsize :
  socket_recv (Bufsize 4) (stream [x0a; x0b; x0c; x0d; x0e] [1; 1; 1; 1; 1])
  = inr ([x0a], stream [x0b; x0c; x0d; x0e] [1; 1; 1; 1]).
Proof. reflexivity. Qed.

(** C8.  On a socket of the standard library [recv_all_into] assembles
    nothing: for every buffer that is not empty and every stream,
    however the bytes are delivered, the first [sock.recv(buf)] raises
    [TypeError] (the buffer stands where [recv] takes a byte count); no
    byte is taken from the stream and the call does not return. *)
Theorem recv_all_into_socket_type_error (fuel : nat) (buf : list byte)
    (sock : socket) :
  0 < length buf ->
  0 < fuel ->
  recv_all_into_with socket_read fuel buf sock = (Raise TypeError, sock).
Proof.
  intros Hbuf Hfuel. unfold recv_all_into_with.
  destruct fuel as [|fuel]; [lia|].
  simpl. unfold mv_len. simpl. rewrite Nat.sub_0_r.
  apply Nat.ltb_lt in Hbuf. rewrite Hbuf. reflexivity.
Qed.

(** One byte per read, five bytes waiting, a buffer of four bytes. *)
Lemma recv_all_into_socket_type_error_witness :
  0 < length (bytearray 4)
  /\ 0 < 4
  /\ recv_all_into_with socket_read 4 (bytearray 4)
       (stream [x0a; x0b; x0c; x0d; x0e] [1; 1; 1; 1; 1])
     = (Raise TypeError, stream [x0a; x0b; x0c; x0d; x0e] [1; 1; 1; 1; 1]).
Proof.
  assert (Hbuf : 0 < length (bytearray 4)) by (simpl; repeat constructor).
  assert (Hfuel : 0 < 4) by repeat constructor.
  exact (conj Hbuf (conj Hfuel
           (recv_all_into_socket_type_error 4 (bytearray 4)
              (stream [x0a; x0b; x0c; x0d; x0e] [1; 1; 1; 1; 1])
              Hbuf Hfuel))).
Defined.

(** C1.  On a stream that closes before the buffer is full (every read
    from then on returns 0), [recv_all_into] neither returns nor raises:
    whatever the fuel, the loop is still running when the fuel is spent.
    No [ConnectSocksProxyError] is ever raised. *)
Theorem recv_all_into_closed_stream_never_ends (fuel : nat)
    (buf : list byte) (sock : socket) :
  length (incoming sock) < length buf ->
  fst (recv_all_into fuel buf sock) = OutOfFuel.
Proof.
  intros Hshort. unfold recv_all_into.
  apply recv_all_into_loop_starved; simpl; lia.
Qed.

(** A closed peer and a buffer of two bytes, a thousand iterations. *)
Lemma recv_all_into_closed_stream_never_ends_witness :
  length (incoming (stream [] [])) < length (bytearray 2)
  /\ fst (recv_all_into 1000 (bytearray 2) (stream [] [])) = OutOfFuel.
Proof.
  assert (Hshort : length (incoming (stream [] [])) < length (bytearray 2)).
  { simpl. repeat constructor. }
  split; [exact Hshort|].
  exact (recv_all_into_closed_stream_never_ends 1000 (bytearray 2)
           (stream [] []) Hshort).
Defined.

(** [recv_all_into] raises nothing of its own. *)
Lemma recv_all_into_never_raises (fuel : nat) (buf : list byte)
    (sock : socket) (e : exn) :
  fst (recv_all_into fuel buf sock) <> Raise e.
Proof. apply recv_all_into_loop_never_raises. Qed.

(** Reading [n] bytes that the stream holds, at any fragmentation. *)
Lemma recv_exact (fuel n : nat) (sock : socket) :
  positive_fragments sock ->
  n <= length (incoming sock) ->
  n <= fuel ->
  exists sock',
    recv_all_into fuel (bytearray n) sock
    = (Return (take n (incoming sock)), sock')
    /\ incoming sock' = drop n (incoming sock)
    /\ sent sock' = sent sock
    /\ positive_fragments sock'.
Proof.
  intros Hpos Hlen Hfuel. unfold recv_all_into.
  assert (Hn : length (bytearray n) = n) by apply repeat_length.
  destruct (recv_all_into_loop_fill fuel (bytearray n) 0 0 sock)
    as (sock' & Hrun & Hinc & Hsent & _ & _ & Hpos');
    simpl; rewrite ?Hn; try lia; try assumption.
  exists sock'. rewrite Hrun. simpl in *. rewrite Hn, Nat.sub_0_r in *. auto.
Qed.

(** ** Formats *)

Section StructFormats.

Variable c : ascii.
Hypothesis c_not_code : getentry c = None.
Hypothesis c_not_digit : digit_of c = None.
Hypothesis c_not_space : is_space c = false.

(** A character that is neither a format code, a digit nor white space
    makes the whole format a bad one, wherever it stands. *)
Lemma parse_codes_bad_char (before after : list ascii) :
  forall count,
    parse_codes (before ++ c :: after) count = inl (StructError BadChar).
Proof.
  induction before as [|d before IH]; intros count; simpl.
  - rewrite c_not_digit, c_not_space, c_not_code. reflexivity.
  - destruct (digit_of d); [apply IH|].
    destruct (is_space d && negb (bool_decide (is_Some count))); [apply IH|].
    destruct (getentry d); [|reflexivity].
    rewrite IH. reflexivity.
Qed.

End StructFormats.

(** A byte-order mark is accepted as the first character only: [!] at
    any later position is rejected, in [pack] and in [unpack] alike. *)
Lemma parse_format_second_mark (first : ascii) (before after : list ascii) :
  parse_format (string_of_list_ascii (first :: before ++ "!"%char :: after))
  = inl (StructError BadChar).
Proof.
  unfold parse_format. rewrite list_ascii_of_string_of_list_ascii.
  unfold whichtable.
  destruct (Ascii.eqb first "!" || Ascii.eqb first ">");
    [rewrite parse_codes_bad_char by reflexivity; reflexivity|].
  destruct (Ascii.eqb first "<" || Ascii.eqb first "=" || Ascii.eqb first "@");
    [rewrite parse_codes_bad_char by reflexivity; reflexivity|].
  rewrite (parse_codes_bad_char "!"%char eq_refl eq_refl eq_refl
             (first :: before) after).
  reflexivity.
Qed.

Lemma struct_pack_second_mark (first : ascii) (before after : list ascii)
    (vals : list value) :
  struct_pack (string_of_list_ascii (first :: before ++ "!"%char :: after)) vals
  = inl (StructError BadChar).
Proof. unfold struct_pack. rewrite parse_format_second_mark. reflexivity. Qed.

Lemma struct_unpack_second_mark (first : ascii) (before after : list ascii)
    (buf : list byte) :
  struct_unpack (string_of_list_ascii (first :: before ++ "!"%char :: after)) buf
  = inl (StructError BadChar).
Proof. unfold struct_unpack. rewrite parse_format_second_mark. reflexivity. Qed.

(** The formats of the program: three of them repeat the mark, two do
    not. *)
Lemma pack_greeting_format (vals : list value) :
  struct_pack "!B!B!B" vals = inl (StructError BadChar).
Proof. exact (struct_pack_second_mark "!" ["B"%char] ["B"; "!"; "B"]%char vals). Qed.

Lemma pack_request_format (vals : list value) :
  struct_pack "!B!B!B!B!B" vals = inl (StructError BadChar).
Proof.
  exact (struct_pack_second_mark "!" ["B"%char]
           ["B"; "!"; "B"; "!"; "B"; "!"; "B"]%char vals).
Qed.

Lemma unpack_header_format (buf : list byte) :
  struct_unpack "!B!B" buf = inl (StructError BadChar).
Proof. exact (struct_unpack_second_mark "!" ["B"%char] ["B"%char] buf). Qed.

Lemma unpack_length_format (b : byte) :
  struct_unpack "!B" [b] = inr [Z_of_byte b].
Proof. reflexivity. Qed.

Lemma pack_port_format (port : Z) :
  (0 <= port <= 65535)%Z ->
  struct_pack "!H" [VInt port]
  = inr [byte_of_Z (port / 256); byte_of_Z port].
Proof.
  intros [Hlo Hhi]. unfold struct_pack. simpl. unfold pack_one. simpl.
  apply Z.leb_le in Hlo. apply Z.leb_le in Hhi. rewrite Hlo, Hhi. reflexivity.
Qed.

(** ** The status table *)

Lemma error_descr_table :
  error_descr 1 = "general failure"
  /\ error_descr 2 = "connection not allowed by ruleset"
  /\ error_descr 3 = "network unreachable"
  /\ error_descr 4 = "host unreachable"
  /\ error_descr 5 = "connection refused by destination host"
  /\ error_descr 6 = "TTL expired"
  /\ error_descr 7 = "command not supported / protocol error"
  /\ error_descr 8 = "address type not supported".
Proof. repeat split. Qed.

Lemma error_descr_unknown (status : Z) :
  (status < 1 \/ 8 < status)%Z -> error_descr status = py_hex status.
Proof.
  intros H. unfold error_descr.
  repeat match goal with
    | |- context [(status =? ?k)%Z] =>
        destruct (Z.eqb_spec status k); [lia|]
    end.
  reflexivity.
Qed.

Example error_descr_0xff : error_descr 0xff = "0xff".
Proof. reflexivity. Qed.

(** ** The phases *)

Lemma recv_header (fuel : nat) (b1 b2 : byte) (rest : list byte)
    (sock : socket) :
  incoming sock = b1 :: b2 :: rest ->
  positive_fragments sock ->
  2 <= fuel ->
  exists sock',
    recv_all_into fuel (bytearray 2) sock = (Return [b1; b2], sock')
    /\ incoming sock' = rest
    /\ sent sock' = sent sock.
Proof.
  intros Hin Hpos Hfuel.
  destruct (recv_exact fuel 2 sock Hpos) as (sock' & Hrun & Hinc & Hsent & _);
    [rewrite Hin; simpl; lia | assumption |].
  exists sock'. rewrite Hrun, Hinc, Hin. auto.
Qed.

Lemma on_sock_greeting_phase (fuel : nat) (w : world) :
  on_sock (greeting_phase fuel) w = (Raise (StructError BadChar), w).
Proof.
  unfold on_sock, greeting_phase, greeting_phase_with, bind, pure.
  cbn [greeting_fmt source_formats].
  rewrite pack_greeting_format. destruct w; reflexivity.
Qed.

(** C6.  The greeting phase writes nothing and reads nothing: compiling
    the format ['!B!B!B'] of its first statement raises [struct.error],
    whatever the stream holds. *)
Theorem greeting_phase_struct_error (fuel : nat) (sock : socket) :
  greeting_phase fuel sock = (Raise (StructError BadChar), sock).
Proof.
  unfold greeting_phase, greeting_phase_with, bind, pure.
  cbn [greeting_fmt source_formats].
  rewrite pack_greeting_format. reflexivity.
Qed.

(** The greeting of the design, had the proxy answered [05 00]. *)
Example greeting_phase_reply_05_00 :
  greeting_phase 2 (stream [x05; x00] [])
  = (Raise (StructError BadChar), stream [x05; x00] []).
Proof. reflexivity. Qed.

(** C4.  For a host name that encodes to 1..255 bytes and a port in
    0..65535, the command phase writes no request: compiling the format
    ['!B!B!B!B!B'] raises [struct.error] and the stream is untouched. *)
Theorem command_request_struct_error (host : list N) (bs : list byte)
    (port : Z) (sock : socket) :
  utf8_encode host = Some bs ->
  1 <= length bs <= 255 ->
  (0 <= port <= 65535)%Z ->
  command_request (VTuple [VStr host; VInt port]) sock
  = (Raise (StructError BadChar), sock).
Proof.
  intros Henc _ _.
  unfold command_request, command_request_with, bind, pure, py_assert,
    str_encode. simpl.
  rewrite Henc. reflexivity.
Qed.

Lemma command_request_struct_error_witness :
  utf8_encode [101; 120; 97; 109; 112; 108; 101; 46; 99; 111; 109]%N
  = Some [x65; x78; x61; x6d; x70; x6c; x65; x2e; x63; x6f; x6d]
  /\ 1 <= length [x65; x78; x61; x6d; x70; x6c; x65; x2e; x63; x6f; x6d] <= 255
  /\ (0 <= 80 <= 65535)%Z
  /\ command_request
       (VTuple [VStr [101; 120; 97; 109; 112; 108; 101; 46; 99; 111; 109]%N;
                VInt 80]) (stream [] [])
     = (Raise (StructError BadChar), stream [] []).
Proof.
  assert (Henc : utf8_encode
                   [101; 120; 97; 109; 112; 108; 101; 46; 99; 111; 109]%N
                 = Some [x65; x78; x61; x6d; x70; x6c; x65; x2e; x63; x6f; x6d])
    by reflexivity.
  assert (Hlen : 1 <= length [x65; x78; x61; x6d; x70; x6c; x65; x2e; x63;
                              x6f; x6d] <= 255)
    by (simpl; split; repeat constructor).
  assert (Hport : (0 <= 80 <= 65535)%Z) by (split; discriminate).
  exact (conj Henc (conj Hlen (conj Hport
           (command_request_struct_error _ _ 80 (stream [] [])
              Henc Hlen Hport)))).
Defined.

(** C7.  Whatever the two bytes of the reply header are, the command
    phase reads them and stops there with [struct.error], raised by the
    format ['!B!B'] of [unpack]; neither success nor
    [ConnectSocksProxyError] nor [FormatSocksProxyError] comes out. *)
Theorem command_reply_struct_error (fuel : nat) (ver status : byte)
    (rest : list byte) (sock : socket) :
  incoming sock = ver :: status :: rest ->
  positive_fragments sock ->
  2 <= fuel ->
  exists sock',
    command_reply fuel sock = (Raise (StructError BadChar), sock')
    /\ incoming sock' = rest
    /\ sent sock' = sent sock.
Proof.
  intros Hin Hpos Hfuel.
  destruct (recv_header fuel ver status rest sock Hin Hpos Hfuel)
    as (sock' & Hrun & Hinc & Hsent).
  exists sock'. unfold command_reply, command_reply_with, bind.
  rewrite Hrun. unfold pure. cbn [header_fmt source_formats].
  rewrite unpack_header_format. auto.
Qed.

(** The reply [05 05], connection refused by destination host. *)
Lemma command_reply_struct_error_witness :
  incoming (stream [x05; x05] []) = [x05; x05]
  /\ positive_fragments (stream [x05; x05] [])
  /\ 2 <= 2
  /\ exists sock',
       command_reply 2 (stream [x05; x05] [])
       = (Raise (StructError BadChar), sock')
       /\ incoming sock' = []
       /\ sent sock' = sent (stream [x05; x05] []).
Proof.
  assert (Hpos : positive_fragments (stream [x05; x05] []))
    by (unfold positive_fragments; simpl; constructor).
  assert (Hfuel : 2 <= 2) by constructor.
  exact (conj eq_refl (conj Hpos (conj Hfuel
           (command_reply_struct_error 2 x05 x05 [] (stream [x05; x05] [])
              eq_refl Hpos Hfuel)))).
Defined.

(** C5.  Whatever the address type, the drain reads the two bytes of
    its header and stops there with [struct.error], raised by the format
    ['!B!B'] of [unpack]: no byte of the address or of the port is
    consumed, and [FormatSocksProxyError] is not raised. *)
Theorem reply_address_drain_struct_error (fuel : nat) (rsv atyp : byte)
    (rest : list byte) (sock : socket) :
  incoming sock = rsv :: atyp :: rest ->
  positive_fragments sock ->
  2 <= fuel ->
  exists sock',
    reply_address_drain fuel sock = (Raise (StructError BadChar), sock')
    /\ incoming sock' = rest
    /\ sent sock' = sent sock.
Proof.
  intros Hin Hpos Hfuel.
  destruct (recv_header fuel rsv atyp rest sock Hin Hpos Hfuel)
    as (sock' & Hrun & Hinc & Hsent).
  exists sock'. unfold reply_address_drain, reply_address_drain_with, bind.
  rewrite Hrun. unfold pure. cbn [header_fmt source_formats].
  rewrite unpack_header_format. auto.
Qed.

(** An IPv4 reply: the four address bytes and the two port bytes stay. *)
Lemma reply_address_drain_struct_error_witness :
  incoming (stream [x00; x01; x7f; x00; x00; x01; x04; x38] [])
  = [x00; x01; x7f; x00; x00; x01; x04; x38]
  /\ positive_fragments (stream [x00; x01; x7f; x00; x00; x01; x04; x38] [])
  /\ 2 <= 8
  /\ exists sock',
       reply_address_drain 8
         (stream [x00; x01; x7f; x00; x00; x01; x04; x38] [])
       = (Raise (StructError BadChar), sock')
       /\ incoming sock' = [x7f; x00; x00; x01; x04; x38]
       /\ sent sock' = sent (stream [x00; x01; x7f; x00; x00; x01; x04; x38] []).
Proof.
  assert (Hpos : positive_fragments
                   (stream [x00; x01; x7f; x00; x00; x01; x04; x38] []))
    by (unfold positive_fragments; simpl; constructor).
  assert (Hfuel : 2 <= 8) by (repeat constructor).
  exact (conj eq_refl (conj Hpos (conj Hfuel
           (reply_address_drain_struct_error 8 x00 x01
              [x7f; x00; x00; x01; x04; x38]
              (stream [x00; x01; x7f; x00; x00; x01; x04; x38] [])
              eq_refl Hpos Hfuel)))).
Defined.

(** C3.  With a timeout supplied, the end phase raises [AttributeError]
    on the lookup of [settimeout] in the [socket] module: the timeout of
    the negotiated stream is not changed and the stream is not returned.
    Without one, the end phase returns the stream as it is. *)
Theorem end_phase_leaves_timeout (t : value) (w : world) :
  end_phase (Some t) w = (Raise (AttributeError "settimeout"), w)
  /\ end_phase None w = (Return tt, w).
Proof. split; reflexivity. Qed.

(** ** The whole call *)

(** [pack] raises nothing but [struct.error]. *)
Lemma parse_codes_error (fmt : list ascii) :
  forall count e,
    parse_codes fmt count = inl e -> exists why, e = StructError why.
Proof.
  induction fmt as [|c fmt IH]; intros count e H; simpl in H.
  - destruct count; inversion H; eauto.
  - destruct (digit_of c); [eapply IH; exact H|].
    destruct (is_space c && negb (bool_decide (is_Some count)));
      [eapply IH; exact H|].
    destruct (getentry c); [|inversion H; eauto].
    destruct (parse_codes fmt None) eqn:Hrest; [|discriminate].
    inversion H; subst. eapply IH. exact Hrest.
Qed.

Lemma pack_all_error (order : byte_order) (codes : list format_code) :
  forall vals e,
    pack_all order codes vals = inl e -> exists why, e = StructError why.
Proof.
  induction codes as [|c codes IH]; intros vals e H;
    destruct vals as [|v vals]; simpl in H; try (inversion H; eauto; fail).
  destruct (pack_one order c v) as [e1|b1] eqn:H1.
  - inversion H; subst e1. unfold pack_one in H1.
    destruct (as_integer v) as [e2|z] eqn:Hz.
    + inversion H1; subst e2. destruct v; simpl in Hz; inversion Hz; eauto.
    + destruct c;
        [destruct ((0 <=? z)%Z && (z <=? 255)%Z)
        |destruct ((0 <=? z)%Z && (z <=? 65535)%Z)];
        inversion H1; eauto.
  - destruct (pack_all order codes vals) eqn:Hall; [|discriminate].
    inversion H; subst. eapply IH. exact Hall.
Qed.

Lemma struct_pack_error (fmt : string) (vals : list value) (e : exn) :
  struct_pack fmt vals = inl e -> exists why, e = StructError why.
Proof.
  unfold struct_pack, parse_format. intros H.
  destruct (whichtable (list_ascii_of_string fmt)) as [order rest].
  destruct (parse_codes rest None) as [e'|codes] eqn:Hc.
  - inversion H; subst e'. eapply parse_codes_error. exact Hc.
  - destruct (length codes =? length vals).
    + eapply pack_all_error. exact H.
    + inversion H; eauto.
Qed.

(** After the dial, the call switches keep-alive on and stops in the
    greeting phase, whatever follows it. *)
Lemma handshake_stops_at_greeting {A} (fuel : nat) (k : M world A)
    (w : world) :
  (on_sock (sock_setsockopt "SOL_SOCKET" "SO_KEEPALIVE" 1) >>>
   on_sock (greeting_phase_with source_formats fuel) >>> k) w
  = (Raise (StructError BadChar), keepalive_on w).
Proof.
  unfold bind at 1. unfold keepalive_on.
  destruct (on_sock (sock_setsockopt "SOL_SOCKET" "SO_KEEPALIVE" 1) w)
    as [r w1] eqn:Hopt.
  assert (Hr : r = Return tt).
  { unfold on_sock, sock_setsockopt in Hopt. inversion Hopt. reflexivity. }
  subst r. unfold bind.
  change (greeting_phase_with source_formats fuel) with (greeting_phase fuel).
  rewrite on_sock_greeting_phase. reflexivity.
Qed.

Lemma original_create_connection_run (proxy_address : value)
    (proxy_kwargs : gmap string value) (w : world) :
  original_create_connection proxy_address proxy_kwargs w
  = (if reachable w then Return tt else Raise OSError,
     dialed proxy_address proxy_kwargs w).
Proof.
  unfold dialed, original_create_connection.
  destruct (reachable w); [|reflexivity].
  destruct (proxy_kwargs !! "timeout"); reflexivity.
Qed.

(** Every run of the call: the checks of the entry, the dial, and the
    stop in the greeting phase. *)
Lemma socks_proxy_create_connection_run (fuel : nat) (address : value)
    (timeout source_address : option value) (kwargs : gmap string value)
    (w : world) :
  socks_proxy_create_connection fuel address timeout source_address kwargs w
  = if negb (patched w) then (Raise AssertionError, w)
    else
      match kwargs !! "proxy_address" with
      | None => (Raise (KeyError "proxy_address"), w)
      | Some proxy_address =>
          if is_None proxy_address then (Raise AssertionError, w)
          else if address_rejected address then
            (Raise (ArgSocksProxyError
               "address of connection must be tuple: hostname (str) and port (int)"),
             w)
          else
            let w1 := dialed proxy_address
                        (make_proxy_kwargs
                           (kwargs_get kwargs "proxy_timeout")
                           (kwargs_get kwargs "proxy_source_address")) w in
            if reachable w then (Raise (StructError BadChar), keepalive_on w1)
            else (Raise OSError, w1)
      end.
Proof.
  unfold socks_proxy_create_connection, socks_proxy_create_connection_with.
  unfold bind at 1. unfold assert_patched, py_assert.
  destruct (patched w); [|reflexivity].
  cbv beta iota delta [negb ret]. unfold bind at 1.
  unfold kwargs_getitem, pure.
  destruct (kwargs !! "proxy_address") as [proxy_address|]; [|reflexivity].
  cbv beta iota delta [ret]. unfold bind at 1. unfold py_assert.
  destruct (is_None proxy_address); [reflexivity|].
  cbv beta iota delta [negb ret].
  destruct (address_rejected address); [reflexivity|].
  cbv zeta. unfold bind at 1. rewrite original_create_connection_run.
  destruct (reachable w) eqn:Hreach; [|reflexivity].
  rewrite handshake_stops_at_greeting. reflexivity.
Qed.

Lemma dialed_conn_io (proxy_address : value)
    (proxy_kwargs : gmap string value) (w : world) :
  incoming (conn (dialed proxy_address proxy_kwargs w)) = incoming (conn w)
  /\ sent (conn (dialed proxy_address proxy_kwargs w)) = sent (conn w)
  /\ dials (dialed proxy_address proxy_kwargs w)
     = dials w ++ [(proxy_address, proxy_kwargs)].
Proof.
  unfold dialed, original_create_connection.
  destruct (reachable w); [|auto].
  destruct (proxy_kwargs !! "timeout"); auto.
Qed.

Lemma keepalive_on_io (w : world) :
  incoming (conn (keepalive_on w)) = incoming (conn w)
  /\ sent (conn (keepalive_on w)) = sent (conn w)
  /\ dials (keepalive_on w) = dials w.
Proof. unfold keepalive_on. auto. Qed.

Lemma address_rejected_shape (address : value) :
  address_rejected address = false <-> target_shape address.
Proof.
  split.
  - intros H. unfold address_rejected in H.
    destruct address as [| | | | | |items|items]; try discriminate;
      (destruct items as [|host [|port [|x items]]]; try discriminate;
       simpl in H; apply orb_false_elim in H; destruct H as [Hh Hp];
       apply negb_false_iff in Hh; apply negb_false_iff in Hp;
       exists host, port; split; [auto|]; split;
       [destruct host; try discriminate; eauto
       |destruct port; try discriminate; eauto]).
  - intros (host & port & Hshape & (s & Hs) & Hport). subst host.
    destruct Hshape as [-> | ->];
      destruct Hport as [(z & ->) | (b & ->)]; reflexivity.
Qed.


Example port_as_str_is_not_a_target :
  ~ target_shape (VList [str "example.com"; str "80"]).
Proof.
  intros Hshape. apply address_rejected_shape in Hshape. discriminate.
Qed.

(** C10.  No run of the call raises [ConnectSocksProxyError], and none
    returns a stream: every run ends before the first byte is written
    or read, so the command reply is never looked at. *)
Theorem connect_never_reads_the_reply (fuel : nat) (address : value)
    (timeout source_address : option value) (kwargs : gmap string value)
    (w : world) :
  (forall msg,
     fst (socks_proxy_create_connection fuel address timeout source_address
            kwargs w)
     <> Raise (ConnectSocksProxyError msg))
  /\ fst (socks_proxy_create_connection fuel address timeout source_address
            kwargs w) <> Return tt
  /\ incoming (conn (snd (socks_proxy_create_connection fuel address timeout
                            source_address kwargs w)))
     = incoming (conn w)
  /\ sent (conn (snd (socks_proxy_create_connection fuel address timeout
                        source_address kwargs w)))
     = sent (conn w).
Proof.
  rewrite socks_proxy_create_connection_run.
  destruct (patched w); simpl negb; cbv iota;
    [|repeat split; try discriminate].
  destruct (kwargs !! "proxy_address") as [proxy_address|];
    [|repeat split; try discriminate].
  destruct (is_None proxy_address); [repeat split; try discriminate|].
  destruct (address_rejected address); [repeat split; try discriminate|].
  cbv zeta.
  destruct (dialed_conn_io proxy_address
              (make_proxy_kwargs (kwargs_get kwargs "proxy_timeout")
                 (kwargs_get kwargs "proxy_source_address")) w)
    as (Hinc & Hsent & _).
  destruct (keepalive_on_io
              (dialed proxy_address
                 (make_proxy_kwargs (kwargs_get kwargs "proxy_timeout")
                    (kwargs_get kwargs "proxy_source_address")) w))
    as (Hinc' & Hsent' & _).
  destruct (reachable w); cbn [fst snd].
  - rewrite Hinc', Hsent', Hinc, Hsent. repeat split; discriminate.
  - rewrite Hinc, Hsent. repeat split; discriminate.
Qed.

(** The proxy accepts the greeting and refuses the connection
    ([05 00], then [05 05] and an IPv4 address): the call ends in the
    greeting phase, with all the bytes of the proxy unread. *)
Example connect_refused_by_destination :
  socks_proxy_create_connection 8 (VTuple [str "example.com"; VInt 80])
    None None proxy_config
    (proxy_world [x05; x00; x05; x05; x00; x01; x00; x00; x00; x00; x00; x00])
  = (Raise (StructError BadChar),
     keepalive_on
       (dialed local_proxy
          (make_proxy_kwargs VNone VNone)
          (proxy_world [x05; x00; x05; x05; x00; x01; x00; x00; x00; x00;
                        x00; x00]))).
Proof. vm_compute. reflexivity. Qed.

(** ** The phases with the byte-order mark written once

    What each phase does beyond the defective format: at
    [single_mark_formats] the phases are the ones the design describes.
    These lemmas are about the statements that follow the [struct] calls
    in the source; the source itself runs at [source_formats]. *)

Lemma Z_of_byte_inj (b c : byte) : Z_of_byte b = Z_of_byte c -> b = c.
Proof.
  unfold Z_of_byte. intros H. apply N2Z.inj in H.
  pose proof (Byte.of_to_N b) as Hb. pose proof (Byte.of_to_N c) as Hc.
  rewrite H in Hb. congruence.
Qed.

Lemma Z_of_byte_range (b : byte) : (0 <= Z_of_byte b <= 255)%Z.
Proof.
  unfold Z_of_byte. pose proof (Byte.to_N_bounded b). lia.
Qed.

Lemma Z_of_byte_of_Z (z : Z) :
  (0 <= z <= 255)%Z -> Z_of_byte (byte_of_Z z) = z.
Proof.
  intros Hz. unfold Z_of_byte, byte_of_Z.
  rewrite Z.mod_small by lia.
  destruct (Byte.of_N (Z.to_N z)) as [b|] eqn:Hb.
  - simpl. apply Byte.to_of_N in Hb. lia.
  - apply Byte.of_N_None_iff in Hb. lia.
Qed.

Lemma Z_of_byte_eqb (b c : byte) :
  (Z_of_byte b =? Z_of_byte c)%Z = true <-> b = c.
Proof.
  rewrite Z.eqb_eq. split; [apply Z_of_byte_inj | congruence].
Qed.

Lemma sendall_then {A} (data : list byte) (k : M socket A) (sock : socket) :
  (sock_sendall data >>> k) sock
  = k {| incoming := incoming sock; fragments := fragments sock;
         sent := sent sock ++ data; sockopts := sockopts sock;
         timeout := timeout sock |}.
Proof. reflexivity. Qed.

Lemma unpack_header_single_mark (b1 b2 : byte) :
  struct_unpack "!BB" [b1; b2] = inr [Z_of_byte b1; Z_of_byte b2].
Proof. reflexivity. Qed.

Lemma unpack_port_format (buf : list byte) :
  length buf = 2 -> exists port, struct_unpack "!H" buf = inr [port].
Proof.
  destruct buf as [|b1 [|b2 [|b3 buf]]]; try discriminate.
  intros _. eexists. reflexivity.
Qed.

Lemma pack_greeting_single_mark :
  struct_pack "!BBB" [VInt 5; VInt 1; VInt 0] = inr [x05; x01; x00].
Proof. reflexivity. Qed.

Lemma pack_request_single_mark (n : Z) :
  (0 <= n <= 255)%Z ->
  struct_pack "!BBBBB" [VInt 5; VInt 1; VInt 0; VInt 3; VInt n]
  = inr [x05; x01; x00; x03; byte_of_Z n].
Proof.
  intros [Hlo Hhi]. unfold struct_pack. simpl. unfold pack_one. simpl.
  apply Z.leb_le in Hlo. apply Z.leb_le in Hhi. rewrite Hlo, Hhi. reflexivity.
Qed.

(** The greeting: [05 01 00] is written, two bytes are read, and the
    outcome follows the version and the method of the reply. *)
Lemma greeting_single_mark (fuel : nat) (ver method : byte)
    (rest : list byte) (sock : socket) :
  incoming sock = ver :: method :: rest ->
  positive_fragments sock ->
  2 <= fuel ->
  exists sock',
    greeting_phase_with single_mark_formats fuel sock
    = (if negb (Z_of_byte ver =? 5)%Z then
         Raise (FormatSocksProxyError
                  "invalid socks-proxy format (socks5: greeting phase)")
       else if negb (Z_of_byte method =? 0)%Z then
         Raise (AuthSocksProxyError
                  "invalid socks-proxy authorization (socks5: greeting phase)")
       else Return tt, sock')
    /\ sent sock' = sent sock ++ [x05; x01; x00]
    /\ incoming sock' = rest.
Proof.
  intros Hin Hpos Hfuel.
  unfold greeting_phase_with. cbn [greeting_fmt header_fmt single_mark_formats].
  unfold bind at 1. rewrite pack_greeting_single_mark.
  cbv beta iota delta [pure ret]. rewrite sendall_then.
  set (sock1 := {| incoming := incoming sock; fragments := fragments sock;
                   sent := sent sock ++ [x05; x01; x00];
                   sockopts := sockopts sock; timeout := timeout sock |}).
  destruct (recv_header fuel ver method rest sock1 Hin Hpos Hfuel)
    as (sock' & Hrun & Hinc & Hsent).
  exists sock'. unfold bind at 1. rewrite Hrun.
  unfold bind at 1. rewrite unpack_header_single_mark.
  cbv beta iota delta [pure ret].
  unfold bind at 1. cbn [item lookup list_lookup].
  cbv beta iota delta [pure ret].
  split; [|auto].
  destruct (Z_of_byte ver =? 5)%Z; simpl negb; cbv iota; [|reflexivity].
  unfold bind. cbn [item lookup list_lookup]. cbv beta iota delta [pure ret].
  destruct (Z_of_byte method =? 0)%Z; reflexivity.
Qed.

(** The request: [05 01 00 03], the length byte, the host name and the
    port in network order, 7 + len(host) bytes in all. *)
Lemma command_request_single_mark (host : list N) (bs : list byte)
    (port : Z) (sock : socket) :
  utf8_encode host = Some bs ->
  length bs <= 255 ->
  (0 <= port <= 65535)%Z ->
  command_request_with single_mark_formats (VTuple [VStr host; VInt port]) sock
  = sock_sendall
      ([x05; x01; x00; x03; byte_of_Z (Z.of_nat (length bs))] ++ bs
       ++ [byte_of_Z (port / 256); byte_of_Z port]) sock
  /\ Z_of_byte (byte_of_Z (Z.of_nat (length bs))) = Z.of_nat (length bs)
  /\ length ([x05; x01; x00; x03; byte_of_Z (Z.of_nat (length bs))] ++ bs
             ++ [byte_of_Z (port / 256); byte_of_Z port])
     = 7 + length bs.
Proof.
  intros Henc Hlen Hport. split; [|split].
  - unfold command_request_with.
    cbn [request_fmt single_mark_formats].
    unfold bind, pure, py_assert, str_encode. simpl.
    rewrite Henc. cbv beta iota delta [ret].
    rewrite pack_request_single_mark by lia.
    rewrite pack_port_format by assumption.
    reflexivity.
  - apply Z_of_byte_of_Z. lia.
  - rewrite !length_app. simpl. lia.
Qed.

(** The reply header: the outcome follows the version and the status,
    and nothing after the header is read. *)
Lemma command_reply_single_mark (fuel : nat) (ver status : byte)
    (rest : list byte) (sock : socket) :
  incoming sock = ver :: status :: rest ->
  positive_fragments sock ->
  2 <= fuel ->
  exists sock',
    command_reply_with single_mark_formats fuel sock
    = (if negb (Z_of_byte ver =? 5)%Z then
         Raise (FormatSocksProxyError
                  "invalid socks-proxy format (socks5: command phase)")
       else if negb (Z_of_byte status =? 0)%Z then
         Raise (ConnectSocksProxyError
                  (connect_error_message (error_descr (Z_of_byte status))))
       else Return tt, sock')
    /\ incoming sock' = rest
    /\ sent sock' = sent sock.
Proof.
  intros Hin Hpos Hfuel.
  destruct (recv_header fuel ver status rest sock Hin Hpos Hfuel)
    as (sock' & Hrun & Hinc & Hsent).
  exists sock'. split; [|auto].
  unfold command_reply_with. cbn [header_fmt single_mark_formats].
  unfold bind at 1. rewrite Hrun.
  unfold bind at 1. rewrite unpack_header_single_mark.
  cbv beta iota delta [pure ret].
  unfold bind at 1. cbn [item lookup list_lookup].
  cbv beta iota delta [pure ret].
  destruct (Z_of_byte ver =? 5)%Z; simpl negb; cbv iota; [|reflexivity].
  unfold bind. cbn [item lookup list_lookup]. cbv beta iota delta [pure ret].
  destruct (Z_of_byte status =? 0)%Z; reflexivity.
Qed.

Lemma drain_address (fuel n : nat) (sock : socket) :
  positive_fragments sock ->
  n <= length (incoming sock) ->
  n <= fuel ->
  exists sock',
    (let! host_recv_data := recv_all_into fuel (bytearray n) in ret tt) sock
    = (Return tt, sock')
    /\ incoming sock' = drop n (incoming sock)
    /\ sent sock' = sent sock
    /\ positive_fragments sock'.
Proof.
  intros Hpos Hlen Hfuel.
  destruct (recv_exact fuel n sock Hpos Hlen Hfuel)
    as (sock' & Hrun & Hrest).
  exists sock'. unfold bind. rewrite Hrun. auto.
Qed.

Lemma drain_port (fuel : nat) (sock : socket) :
  positive_fragments sock ->
  2 <= length (incoming sock) ->
  2 <= fuel ->
  exists sock',
    (let! port_recv_data := recv_all_into fuel (bytearray 2) in
     let! recv_data := pure (struct_unpack "!H" port_recv_data) in
     ret tt) sock
    = (Return tt, sock')
    /\ incoming sock' = drop 2 (incoming sock)
    /\ sent sock' = sent sock.
Proof.
  intros Hpos Hlen Hfuel.
  destruct (recv_exact fuel 2 sock Hpos Hlen Hfuel)
    as (sock' & Hrun & Hinc & Hsent & _).
  destruct (unpack_port_format (take 2 (incoming sock))) as [port Hport].
  { rewrite length_take. lia. }
  exists sock'. unfold bind at 1. rewrite Hrun.
  unfold bind. rewrite Hport. auto.
Qed.

Lemma drain_domain (fuel : nat) (len : byte) (after : list byte)
    (sock : socket) :
  positive_fragments sock ->
  incoming sock = len :: after ->
  Z.to_nat (Z_of_byte len) <= length after ->
  1 <= fuel ->
  Z.to_nat (Z_of_byte len) <= fuel ->
  exists sock',
    (let! host_len_recv_data := recv_all_into fuel (bytearray 1) in
     let! host_len_recv_data := pure (struct_unpack "!B" host_len_recv_data) in
     let! host_len := pure (item host_len_recv_data 0) in
     let! host_recv_data :=
       recv_all_into fuel (bytearray (Z.to_nat host_len)) in
     ret tt) sock
    = (Return tt, sock')
    /\ incoming sock' = drop (Z.to_nat (Z_of_byte len)) after
    /\ sent sock' = sent sock
    /\ positive_fragments sock'.
Proof.
  intros Hpos Hin Hlen Hfuel1 Hfuel.
  destruct (recv_exact fuel 1 sock Hpos) as (sock1 & Hrun1 & Hinc1 & Hsent1 & Hpos1);
    [rewrite Hin; simpl; lia | assumption |].
  rewrite Hin in Hrun1, Hinc1. simpl in Hrun1, Hinc1.
  rewrite take_0 in Hrun1. rewrite drop_0 in Hinc1.
  destruct (recv_exact fuel (Z.to_nat (Z_of_byte len)) sock1 Hpos1)
    as (sock2 & Hrun2 & Hinc2 & Hsent2 & Hpos2);
    [rewrite Hinc1; assumption | assumption |].
  exists sock2. unfold bind at 1. rewrite Hrun1.
  unfold bind at 1. rewrite unpack_length_format.
  cbv beta iota delta [pure ret].
  unfold bind at 1. cbn [item lookup list_lookup].
  cbv beta iota delta [pure ret].
  unfold bind. rewrite Hrun2. rewrite Hinc2, Hinc1, Hsent2, Hsent1. auto.
Qed.

(** The reply address: exactly [reply_address_size] bytes are read after
    the header, or [FormatSocksProxyError] is raised right after it. *)
Lemma reply_address_drain_single_mark (fuel : nat) (rsv atyp : byte)
    (after : list byte) (sock : socket) :
  incoming sock = rsv :: atyp :: after ->
  positive_fragments sock ->
  2 <= fuel ->
  match reply_address_size (Z_of_byte atyp) after with
  | Some k =>
      k <= length after ->
      k <= fuel ->
      exists sock',
        reply_address_drain_with single_mark_formats fuel sock
        = (Return tt, sock')
        /\ incoming sock' = drop k after
        /\ sent sock' = sent sock
  | None =>
      exists sock',
        reply_address_drain_with single_mark_formats fuel sock
        = (Raise (FormatSocksProxyError
                    "invalid socks-proxy format (socks5: command phase)"),
           sock')
        /\ incoming sock' = after
        /\ sent sock' = sent sock
  end.
Proof.
  intros Hin Hpos Hfuel.
  destruct (recv_exact fuel 2 sock Hpos) as (sock1 & Hrun & Hinc & Hsent & Hpos1);
    [rewrite Hin; simpl; lia | assumption |].
  rewrite Hin in Hrun, Hinc. simpl in Hrun, Hinc.
  rewrite take_0 in Hrun. rewrite drop_0 in Hinc.
  assert (Hhead : forall k : M socket unit,
    reply_address_drain_with single_mark_formats fuel sock
    = ((if (Z_of_byte atyp =? 1)%Z then
          let! host_recv_data := recv_all_into fuel (bytearray 4) in ret tt
        else if (Z_of_byte atyp =? 3)%Z then
          let! host_len_recv_data := recv_all_into fuel (bytearray 1) in
          let! host_len_recv_data :=
            pure (struct_unpack "!B" host_len_recv_data) in
          let! host_len := pure (item host_len_recv_data 0) in
          let! host_recv_data :=
            recv_all_into fuel (bytearray (Z.to_nat host_len)) in
          ret tt
        else if (Z_of_byte atyp =? 4)%Z then
          let! host_recv_data := recv_all_into fuel (bytearray 16) in ret tt
        else
          raise (FormatSocksProxyError
                   "invalid socks-proxy format (socks5: command phase)")) >>>
       let! port_recv_data := recv_all_into fuel (bytearray 2) in
       let! recv_data := pure (struct_unpack "!H" port_recv_data) in
       ret tt) sock1).
  { intros _. unfold reply_address_drain_with.
    cbn [header_fmt single_mark_formats].
    unfold bind at 1. rewrite Hrun.
    unfold bind at 1. rewrite unpack_header_single_mark.
    cbv beta iota delta [pure ret].
    unfold bind at 1. cbn [item lookup list_lookup].
    cbv beta iota delta [pure ret]. reflexivity. }
  specialize (Hhead (ret tt)). rewrite Hhead. clear Hhead.
  unfold reply_address_size.
  destruct (Z_of_byte atyp =? 1)%Z.
  { intros Hk Hfk.
    destruct (drain_address fuel 4 sock1 Hpos1)
      as (sock2 & Hrun2 & Hinc2 & Hsent2 & Hpos2); [rewrite Hinc; lia | lia |].
    destruct (drain_port fuel sock2 Hpos2)
      as (sock3 & Hrun3 & Hinc3 & Hsent3);
      [rewrite Hinc2, length_drop, Hinc; lia | lia |].
    exists sock3. unfold bind at 1. rewrite Hrun2. rewrite Hrun3.
    rewrite Hinc3, Hinc2, Hinc, drop_drop, Hsent3, Hsent2, Hsent. auto. }
  destruct (Z_of_byte atyp =? 3)%Z.
  { intros Hk Hfk.
    destruct after as [|len after']; [simpl in Hk; lia|].
    simpl hd in *. simpl length in Hk.
    destruct (drain_domain fuel len after' sock1 Hpos1 Hinc)
      as (sock2 & Hrun2 & Hinc2 & Hsent2 & Hpos2); [lia | lia | lia |].
    destruct (drain_port fuel sock2 Hpos2)
      as (sock3 & Hrun3 & Hinc3 & Hsent3);
      [rewrite Hinc2, length_drop; lia | lia |].
    exists sock3. unfold bind at 1. rewrite Hrun2. rewrite Hrun3.
    rewrite Hinc3, Hinc2, drop_drop, Hsent3, Hsent2, Hsent.
    split; [reflexivity|]. split; [|reflexivity].
    replace (1 + Z.to_nat (Z_of_byte len) + 2)
      with (S (Z.to_nat (Z_of_byte len) + 2)) by lia.
    reflexivity. }
  destruct (Z_of_byte atyp =? 4)%Z.
  { intros Hk Hfk.
    destruct (drain_address fuel 16 sock1 Hpos1)
      as (sock2 & Hrun2 & Hinc2 & Hsent2 & Hpos2); [rewrite Hinc; lia | lia |].
    destruct (drain_port fuel sock2 Hpos2)
      as (sock3 & Hrun3 & Hinc3 & Hsent3);
      [rewrite Hinc2, length_drop, Hinc; lia | lia |].
    exists sock3. unfold bind at 1. rewrite Hrun2. rewrite Hrun3.
    rewrite Hinc3, Hinc2, Hinc, drop_drop, Hsent3, Hsent2, Hsent. auto. }
  exists sock1. unfold bind, raise. auto.
Qed.

(** The scenario of the design: the proxy answers [05 00] to the
    greeting, [05 00] to the request, then an IPv4 address and a port,
    all zero.  Without a timeout the call returns and no byte of the
    handshake is left unread. *)
Example single_mark_handshake :
  let run := socks_proxy_create_connection_with single_mark_formats 8
               (VTuple [str "example.com"; VInt 80]) None None proxy_config
               (proxy_world [x05; x00; x05; x00; x00; x01; x00; x00; x00;
                             x00; x00; x00]) in
  fst run = Return tt
  /\ incoming (conn (snd run)) = []
  /\ sent (conn (snd run))
     = [x05; x01; x00;
        x05; x01; x00; x03; x0b;
        x65; x78; x61; x6d; x70; x6c; x65; x2e; x63; x6f; x6d;
        x00; x50].
Proof. vm_compute. auto. Qed.

(** With a timeout of 5.0 the same handshake ends in [AttributeError];
    the stream keeps the timeout of the dial. *)
Example single_mark_handshake_timeout :
  let run := socks_proxy_create_connection_with single_mark_formats 8
               (VTuple [str "example.com"; VInt 80]) (Some (VFloat 5 1)) None
               proxy_config
               (proxy_world [x05; x00; x05; x00; x00; x01; x00; x00; x00;
                             x00; x00; x00]) in
  fst run = Raise (AttributeError "settimeout")
  /\ timeout (conn (snd run)) = DEFAULT_PROXY_TIMEOUT.
Proof. vm_compute. auto. Qed.

(** A host name of 256 bytes is refused by the packing of its length,
    after the greeting has been exchanged. *)
Example single_mark_long_hostname :
  let run := socks_proxy_create_connection_with single_mark_formats 8
               (VTuple [VStr (repeat 97%N 256); VInt 80]) None None
               proxy_config (proxy_world [x05; x00]) in
  fst run = Raise (StructError OutOfRange)
  /\ sent (conn (snd run)) = [x05; x01; x00]
  /\ incoming (conn (snd run)) = [].
Proof. vm_compute. auto. Qed.

(** A refused connection: the address and the port of the reply stay
    unread. *)
Example single_mark_refused :
  let run := socks_proxy_create_connection_with single_mark_formats 8
               (VTuple [str "example.com"; VInt 80]) None None proxy_config
               (proxy_world [x05; x00; x05; x05; x00; x01; x00; x00; x00;
                             x00; x00; x00]) in
  fst run
  = Raise (ConnectSocksProxyError
      "socks-proxy can not create connection: 'connection refused by destination host' (socks5: command phase)")
  /\ incoming (conn (snd run)) = [x00; x01; x00; x00; x00; x00; x00; x00].
Proof. vm_compute. auto. Qed.

(** An empty host name and a port beyond 65535, the two targets that
    the entry check lets through. *)
Example single_mark_empty_host_wide_port :
  fst (socks_proxy_create_connection_with single_mark_formats 8
         (VTuple [str ""; VInt 80]) None None proxy_config
         (proxy_world [x05; x00; x05; x00; x00; x01; x00; x00; x00; x00;
                       x00; x00]))
  = Return tt
  /\ fst (socks_proxy_create_connection_with single_mark_formats 8
            (VTuple [str "example.com"; VInt 70000]) None None proxy_config
            (proxy_world [x05; x00]))
     = Raise (StructError OutOfRange).
Proof. vm_compute. auto. Qed.

(** ** Where [ArgSocksProxyError] comes from

    The lemmas of this part follow the text of each phase, statement by
    statement, for any record of formats: none of them rests on which
    [struct] call fails first. *)

Section Outcomes.

Context {St : Type}.

Lemma ret_no_argument_error {A} (a : A) :
  raises_no_argument_error (ret a : M St A).
Proof. intros st msg. discriminate. Qed.

Lemma raise_no_argument_error {A} (e : exn) :
  is_argument_error e = false ->
  raises_no_argument_error (raise e : M St A).
Proof.
  intros He st msg H. simpl in H. inversion H; subst e. discriminate.
Qed.

Lemma pure_no_argument_error {A} (r : exn + A) :
  (forall e, r = inl e -> is_argument_error e = false) ->
  raises_no_argument_error (pure r : M St A).
Proof.
  intros H. destruct r as [e|a].
  - apply raise_no_argument_error. apply H. reflexivity.
  - apply ret_no_argument_error.
Qed.

Lemma bind_no_argument_error {A B} (m : M St A) (k : A -> M St B) :
  raises_no_argument_error m ->
  (forall a, raises_no_argument_error (k a)) ->
  raises_no_argument_error (bind m k).
Proof.
  intros Hm Hk st msg. unfold bind. specialize (Hm st msg).
  destruct (m st) as [[a|e|] st']; simpl in *.
  - apply Hk.
  - intros H. apply Hm. inversion H. reflexivity.
  - discriminate.
Qed.

Lemma py_assert_no_argument_error (b : bool) :
  raises_no_argument_error (py_assert b : M St unit).
Proof.
  destruct b; [apply ret_no_argument_error|].
  apply raise_no_argument_error. reflexivity.
Qed.

Lemma bind_never_returns_left {A B} (m : M St A) (k : A -> M St B) :
  never_returns m -> never_returns (bind m k).
Proof.
  intros Hm st b. unfold bind. specialize (Hm st).
  destruct (m st) as [[a|e|] st']; simpl in *.
  - exfalso. exact (Hm a eq_refl).
  - discriminate.
  - discriminate.
Qed.

Lemma bind_never_returns_right {A B} (m : M St A) (k : A -> M St B) :
  (forall a, never_returns (k a)) -> never_returns (bind m k).
Proof.
  intros Hk st b. unfold bind.
  destruct (m st) as [[a|e|] st']; simpl.
  - apply Hk.
  - discriminate.
  - discriminate.
Qed.

End Outcomes.

Lemma on_sock_no_argument_error {A} (m : M socket A) :
  raises_no_argument_error m -> raises_no_argument_error (on_sock m).
Proof.
  intros Hm w msg. unfold on_sock. specialize (Hm (conn w) msg).
  destruct (m (conn w)) as [r s]. exact Hm.
Qed.

Lemma on_sock_never_returns {A} (m : M socket A) :
  never_returns m -> never_returns (on_sock m).
Proof.
  intros Hm w a. unfold on_sock. specialize (Hm (conn w) a).
  destruct (m (conn w)) as [r s]. exact Hm.
Qed.

Lemma on_sock_keeps_dials {A} (m : M socket A) : keeps_dials (on_sock m).
Proof. intros w. unfold on_sock. destruct (m (conn w)). reflexivity. Qed.

Lemma bind_keeps_dials {A B} (m : M world A) (k : A -> M world B) :
  keeps_dials m -> (forall a, keeps_dials (k a)) -> keeps_dials (bind m k).
Proof.
  intros Hm Hk w. unfold bind. specialize (Hm w).
  destruct (m w) as [[a|e|] w']; simpl in *; try exact Hm.
  rewrite Hk. exact Hm.
Qed.

Lemma end_phase_keeps_dials (timeout : option value) :
  keeps_dials (end_phase timeout).
Proof. intros w. destruct timeout; reflexivity. Qed.

(** The errors of the operations that the phases are made of. *)
Lemma parse_format_error (fmt : string) (e : exn) :
  parse_format fmt = inl e -> exists why, e = StructError why.
Proof.
  unfold parse_format. intros H.
  destruct (whichtable (list_ascii_of_string fmt)) as [order rest].
  destruct (parse_codes rest None) as [e'|codes] eqn:Hc; [|discriminate].
  inversion H; subst e'. eapply parse_codes_error. exact Hc.
Qed.

Lemma struct_unpack_error (fmt : string) (buf : list byte) (e : exn) :
  struct_unpack fmt buf = inl e -> exists why, e = StructError why.
Proof.
  unfold struct_unpack. intros H.
  destruct (parse_format fmt) as [e'|[order codes]] eqn:Hf.
  - inversion H; subst e'. eapply parse_format_error. exact Hf.
  - destruct (length buf =? list_sum (map code_size codes));
      inversion H; eauto.
Qed.

Lemma struct_pack_no_argument_error (fmt : string) (vals : list value)
    (e : exn) :
  struct_pack fmt vals = inl e -> is_argument_error e = false.
Proof. intros H. apply struct_pack_error in H. destruct H as [why ->]. reflexivity. Qed.

Lemma struct_unpack_no_argument_error (fmt : string) (buf : list byte)
    (e : exn) :
  struct_unpack fmt buf = inl e -> is_argument_error e = false.
Proof. intros H. apply struct_unpack_error in H. destruct H as [why ->]. reflexivity. Qed.

Lemma item_no_argument_error (t : list Z) (i : nat) (e : exn) :
  item t i = inl e -> is_argument_error e = false.
Proof. unfold item. destruct (t !! i); intros H; inversion H. reflexivity. Qed.

Lemma py_len_no_argument_error (v : value) (e : exn) :
  py_len v = inl e -> is_argument_error e = false.
Proof. destruct v; intros H; inversion H; reflexivity. Qed.

Lemma py_getitem_no_argument_error (v : value) (i : nat) (e : exn) :
  py_getitem v i = inl e -> is_argument_error e = false.
Proof.
  destruct v as [| | | |s|bs|items|items]; simpl; intros H;
    try (inversion H; reflexivity).
  - destruct (s !! i); inversion H; reflexivity.
  - destruct (bs !! i); inversion H; reflexivity.
  - destruct (items !! i); inversion H; reflexivity.
  - destruct (items !! i); inversion H; reflexivity.
Qed.

Lemma str_encode_no_argument_error (v : value) (e : exn) :
  str_encode v = inl e -> is_argument_error e = false.
Proof.
  destruct v as [| | | |s| | |]; simpl; intros H;
    try (inversion H; reflexivity).
  destruct (utf8_encode s); inversion H; reflexivity.
Qed.

Lemma kwargs_getitem_no_argument_error (kwargs : gmap string value)
    (key : string) (e : exn) :
  kwargs_getitem kwargs key = inl e -> is_argument_error e = false.
Proof.
  unfold kwargs_getitem. destruct (kwargs !! key); intros H; inversion H.
  reflexivity.
Qed.

Lemma sock_sendall_no_argument_error (data : list byte) :
  raises_no_argument_error (sock_sendall data).
Proof. intros sock msg. discriminate. Qed.

Lemma sock_setsockopt_no_argument_error (level optname : string) (v : Z) :
  raises_no_argument_error (sock_setsockopt level optname v).
Proof. intros sock msg. discriminate. Qed.

Lemma recv_all_into_no_argument_error (fuel : nat) (buf : list byte) :
  raises_no_argument_error (recv_all_into fuel buf).
Proof. intros sock msg. apply recv_all_into_never_raises. Qed.

Create HintDb argument_error.

#[local] Hint Resolve struct_pack_no_argument_error
  struct_unpack_no_argument_error item_no_argument_error
  py_len_no_argument_error py_getitem_no_argument_error
  str_encode_no_argument_error kwargs_getitem_no_argument_error
  : argument_error.

(** One step through the text of a phase. *)
Ltac no_argument_error_step :=
  first
    [ apply ret_no_argument_error
    | apply raise_no_argument_error; reflexivity
    | apply py_assert_no_argument_error
    | apply sock_sendall_no_argument_error
    | apply sock_setsockopt_no_argument_error
    | apply recv_all_into_no_argument_error
    | apply pure_no_argument_error; solve [eauto with argument_error]
    | apply on_sock_no_argument_error
    | apply bind_no_argument_error; [|intros ?]
    | match goal with
      | |- raises_no_argument_error (if ?b then _ else _) => destruct b
      end ].

Lemma greeting_phase_no_argument_error (fm : formats) (fuel : nat) :
  raises_no_argument_error (greeting_phase_with fm fuel).
Proof. unfold greeting_phase_with. repeat no_argument_error_step. Qed.

Lemma command_request_no_argument_error (fm : formats) (address : value) :
  raises_no_argument_error (command_request_with fm address).
Proof. unfold command_request_with. repeat no_argument_error_step. Qed.

Lemma command_reply_no_argument_error (fm : formats) (fuel : nat) :
  raises_no_argument_error (command_reply_with fm fuel).
Proof. unfold command_reply_with. repeat no_argument_error_step. Qed.

Lemma reply_address_drain_no_argument_error (fm : formats) (fuel : nat) :
  raises_no_argument_error (reply_address_drain_with fm fuel).
Proof. unfold reply_address_drain_with. repeat no_argument_error_step. Qed.

Lemma end_phase_no_argument_error (timeout : option value) :
  raises_no_argument_error (end_phase timeout).
Proof.
  unfold end_phase, socket_module_settimeout.
  destruct timeout; repeat no_argument_error_step.
Qed.

Lemma original_create_connection_no_argument_error (proxy_address : value)
    (proxy_kwargs : gmap string value) :
  raises_no_argument_error
    (original_create_connection proxy_address proxy_kwargs).
Proof.
  intros w msg. rewrite original_create_connection_run.
  destruct (reachable w); discriminate.
Qed.

Lemma after_dial_no_argument_error (fm : formats) (fuel : nat)
    (address : value) (timeout : option value) :
  raises_no_argument_error (after_dial_with fm fuel address timeout).
Proof.
  unfold after_dial_with.
  pose proof (greeting_phase_no_argument_error fm fuel).
  pose proof (command_request_no_argument_error fm address).
  pose proof (command_reply_no_argument_error fm fuel).
  pose proof (reply_address_drain_no_argument_error fm fuel).
  pose proof (end_phase_no_argument_error timeout).
  repeat first
    [ assumption
    | apply sock_setsockopt_no_argument_error
    | apply on_sock_no_argument_error
    | apply bind_no_argument_error; [|intros ?] ].
Qed.

Lemma after_dial_keeps_dials (fm : formats) (fuel : nat) (address : value)
    (timeout : option value) :
  keeps_dials (after_dial_with fm fuel address timeout).
Proof.
  unfold after_dial_with.
  repeat first
    [ apply on_sock_keeps_dials
    | apply end_phase_keeps_dials
    | apply bind_keeps_dials; [|intros ?] ].
Qed.

(** The entry of the call, for any formats: with the connector installed
    and a proxy address that is not [None], the check of lines 65-71
    decides between the refusal and the dial. *)
Lemma socks_proxy_create_connection_entry (fm : formats) (fuel : nat)
    (address : value) (timeout source_address : option value)
    (kwargs : gmap string value) (proxy_address : value) (w : world) :
  patched w = true ->
  kwargs !! "proxy_address" = Some proxy_address ->
  is_None proxy_address = false ->
  socks_proxy_create_connection_with fm fuel address timeout source_address
    kwargs w
  = if address_rejected address then
      (Raise (ArgSocksProxyError
         "address of connection must be tuple: hostname (str) and port (int)"),
       w)
    else
      (original_create_connection proxy_address
         (make_proxy_kwargs (kwargs_get kwargs "proxy_timeout")
            (kwargs_get kwargs "proxy_source_address")) >>>
       after_dial_with fm fuel address timeout) w.
Proof.
  intros Hpatched Hproxy Hnone.
  unfold socks_proxy_create_connection_with.
  unfold bind at 1. unfold assert_patched, py_assert. rewrite Hpatched.
  cbv beta iota delta [ret]. unfold bind at 1.
  unfold kwargs_getitem, pure. rewrite Hproxy.
  cbv beta iota delta [ret]. unfold bind at 1. unfold py_assert.
  rewrite Hnone. cbv beta iota delta [negb ret].
  destruct (address_rejected address); reflexivity.
Qed.




(** ** Host names of 256 bytes and more *)

(** The length byte of the request: a length of 256 or more does not fit
    the code [B]. *)
Lemma pack_request_single_mark_long (n : Z) :
  (256 <= n)%Z ->
  struct_pack "!BBBBB" [VInt 5; VInt 1; VInt 0; VInt 3; VInt n]
  = inl (StructError OutOfRange).
Proof.
  intros Hn. unfold struct_pack. simpl. unfold pack_one. simpl.
  assert (Hhi : (n <=? 255)%Z = false) by (apply Z.leb_gt; lia).
  rewrite Hhi, andb_false_r. reflexivity.
Qed.

(** The command phase on a host name of 256 bytes or more: [struct.pack]
    of lines 113-121 raises and nothing is sent, with the format of the
    source as with the mark written once. *)
Lemma command_request_long_hostname (fm : formats) (host : list N)
    (bs : list byte) (port : Z) (sock : socket) :
  utf8_encode host = Some bs ->
  256 <= length bs ->
  request_fmt fm = "!B!B!B!B!B" \/ request_fmt fm = "!BBBBB" ->
  exists why,
    command_request_with fm (VTuple [VStr host; VInt port]) sock
    = (Raise (StructError why), sock).
Proof.
  intros Henc Hlen Hfmt.
  unfold command_request_with, bind, pure, py_assert, str_encode. simpl.
  rewrite Henc. cbv beta iota delta [ret].
  destruct Hfmt as [-> | ->].
  - exists BadChar. rewrite pack_request_format. reflexivity.
  - exists OutOfRange. rewrite pack_request_single_mark_long by lia.
    reflexivity.
Qed.

(** C2 as it stands fails: a host name of 256 letters [a] is not
    refused with [ArgSocksProxyError] before the proxy is dialed; the
    check of the entry lets it through, the proxy is dialed, and the
    call ends with [struct.error]. *)
Lemma long_hostname_is_dialed :
  utf8_encode (repeat 97%N 256) = Some (repeat x61 256)
  /\ length (repeat x61 256) = 256
  /\ fst (socks_proxy_create_connection 8
            (VTuple [VStr (repeat 97%N 256); VInt 80]) None None
            proxy_config (proxy_world [x05; x00]))
     = Raise (StructError BadChar)
  /\ dials (snd (socks_proxy_create_connection 8
                   (VTuple [VStr (repeat 97%N 256); VInt 80]) None None
                   proxy_config (proxy_world [x05; x00])))
     = [(local_proxy, make_proxy_kwargs VNone VNone)].
Proof. repeat split; vm_compute; reflexivity. Qed.

(** C2, amended.  With the connector installed and a proxy address that
    is not [None], a target whose host name encodes to 256 bytes or more
    is never refused with [ArgSocksProxyError], whatever the formats of
    the [struct] calls: the check of the entry accepts it and the proxy
    is dialed, once.  With the request format of the source, as with the
    mark written once, the command phase then writes no request for such
    a host ([struct.pack] of lines 113-121 raises before [sendall]), and
    the call does not return. *)
Theorem long_hostname_is_no_argument_error (fuel : nat) (host : list N)
    (bs : list byte) (port : Z) (timeout source_address : option value)
    (kwargs : gmap string value) (proxy_address : value) (w : world) :
  utf8_encode host = Some bs ->
  256 <= length bs ->
  patched w = true ->
  kwargs !! "proxy_address" = Some proxy_address ->
  is_None proxy_address = false ->
  (forall fm msg,
     fst (socks_proxy_create_connection_with fm fuel
            (VTuple [VStr host; VInt port]) timeout source_address kwargs w)
     <> Raise (ArgSocksProxyError msg))
  /\ (forall fm,
        dials (snd (socks_proxy_create_connection_with fm fuel
                      (VTuple [VStr host; VInt port]) timeout source_address
                      kwargs w))
        = dials w
          ++ [(proxy_address,
               make_proxy_kwargs (kwargs_get kwargs "proxy_timeout")
                 (kwargs_get kwargs "proxy_source_address"))])
  /\ (forall fm,
        request_fmt fm = "!B!B!B!B!B" \/ request_fmt fm = "!BBBBB" ->
        (forall sock, exists why,
            command_request_with fm (VTuple [VStr host; VInt port]) sock
            = (Raise (StructError why), sock))
        /\ fst (socks_proxy_create_connection_with fm fuel
                  (VTuple [VStr host; VInt port]) timeout source_address
                  kwargs w)
           <> Return tt).
Proof.
  intros Henc Hlen Hpatched Hproxy Hnone.
  assert (Hentry : forall fm,
    socks_proxy_create_connection_with fm fuel
      (VTuple [VStr host; VInt port]) timeout source_address kwargs w
    = (original_create_connection proxy_address
         (make_proxy_kwargs (kwargs_get kwargs "proxy_timeout")
            (kwargs_get kwargs "proxy_source_address")) >>>
       after_dial_with fm fuel (VTuple [VStr host; VInt port]) timeout) w).
  { intros fm.
    rewrite (socks_proxy_create_connection_entry fm fuel _ timeout
               source_address kwargs proxy_address w Hpatched Hproxy Hnone).
    reflexivity. }
  split; [|split].
  - intros fm msg. rewrite Hentry.
    apply bind_no_argument_error.
    + apply original_create_connection_no_argument_error.
    + intros _. apply after_dial_no_argument_error.
  - intros fm. rewrite Hentry. unfold bind at 1.
    rewrite original_create_connection_run.
    destruct (dialed_conn_io proxy_address
                (make_proxy_kwargs (kwargs_get kwargs "proxy_timeout")
                   (kwargs_get kwargs "proxy_source_address")) w)
      as (_ & _ & Hdials).
    destruct (reachable w); [|exact Hdials].
    rewrite after_dial_keeps_dials. exact Hdials.
  - intros fm Hfmt.
    assert (Hreq : forall sock, exists why,
      command_request_with fm (VTuple [VStr host; VInt port]) sock
      = (Raise (StructError why), sock)).
    { intros sock.
      exact (command_request_long_hostname fm host bs port sock Henc Hlen
               Hfmt). }
    split; [exact Hreq|].
    rewrite Hentry. apply bind_never_returns_right. intros _.
    unfold after_dial_with.
    apply bind_never_returns_right. intros _.
    apply bind_never_returns_right. intros _.
    apply bind_never_returns_left. apply on_sock_never_returns.
    intros sock a. destruct (Hreq sock) as [why ->]. discriminate.
Qed.

(** A host name of 256 letters [a], and a proxy that answers the
    greeting. *)
Lemma long_hostname_is_no_argument_error_witness :
  utf8_encode (repeat 97%N 256) = Some (repeat x61 256)
  /\ 256 <= length (repeat x61 256)
  /\ patched (proxy_world [x05; x00]) = true
  /\ proxy_config !! "proxy_address" = Some local_proxy
  /\ is_None local_proxy = false
  /\ (forall fm msg,
        fst (socks_proxy_create_connection_with fm 8
               (VTuple [VStr (repeat 97%N 256); VInt 80]) None None
               proxy_config (proxy_world [x05; x00]))
        <> Raise (ArgSocksProxyError msg))
  /\ (forall fm,
        dials (snd (socks_proxy_create_connection_with fm 8
                      (VTuple [VStr (repeat 97%N 256); VInt 80]) None None
                      proxy_config (proxy_world [x05; x00])))
        = dials (proxy_world [x05; x00])
          ++ [(local_proxy,
               make_proxy_kwargs (kwargs_get proxy_config "proxy_timeout")
                 (kwargs_get proxy_config "proxy_source_address"))])
  /\ (forall fm,
        request_fmt fm = "!B!B!B!B!B" \/ request_fmt fm = "!BBBBB" ->
        (forall sock, exists why,
            command_request_with fm
              (VTuple [VStr (repeat 97%N 256); VInt 80]) sock
            = (Raise (StructError why), sock))
        /\ fst (socks_proxy_create_connection_with fm 8
                  (VTuple [VStr (repeat 97%N 256); VInt 80]) None None
                  proxy_config (proxy_world [x05; x00]))
           <> Return tt).
Proof.
  assert (Henc : utf8_encode (repeat 97%N 256) = Some (repeat x61 256))
    by (vm_compute; reflexivity).
  assert (Hlen : 256 <= length (repeat x61 256))
    by (rewrite repeat_length; constructor).
  assert (Hproxy : proxy_config !! "proxy_address" = Some local_proxy)
    by (vm_compute; reflexivity).
  exact (conj Henc (conj Hlen (conj eq_refl (conj Hproxy (conj eq_refl
           (long_hostname_is_no_argument_error 8 (repeat 97%N 256)
              (repeat x61 256) 80 None None proxy_config local_proxy
              (proxy_world [x05; x00]) Henc Hlen eq_refl Hproxy
              eq_refl)))))).
Defined.

(** * Further properties of the code *)

(** ** The exact-read loop, on any stream *)

Section ExactReadInvariants.

Implicit Types (fuel start r : nat) (obj buf : list byte) (sock : socket).

(** What one pass of the loop keeps, whatever its outcome: the bytes
    taken from the stream are a prefix of what it held, no longer than
    what the buffer still lacks; the reads used are a prefix of the
    fragments; nothing else of the socket changes. *)
Lemma recv_all_into_loop_frame fuel : forall obj start r sock,
  start + r <= length obj ->
  exists k j,
    k <= length obj - (start + r)
    /\ incoming (snd (recv_all_into_loop fuel
                        {| mv_obj := obj; mv_start := start |} r sock))
       = drop k (incoming sock)
    /\ fragments (snd (recv_all_into_loop fuel
                         {| mv_obj := obj; mv_start := start |} r sock))
       = drop j (fragments sock)
    /\ sent (snd (recv_all_into_loop fuel
                    {| mv_obj := obj; mv_start := start |} r sock))
       = sent sock
    /\ sockopts (snd (recv_all_into_loop fuel
                        {| mv_obj := obj; mv_start := start |} r sock))
       = sockopts sock
    /\ timeout (snd (recv_all_into_loop fuel
                       {| mv_obj := obj; mv_start := start |} r sock))
       = timeout sock.
Proof.
  induction fuel as [|fuel IH]; intros obj start r sock Hle.
  - exists 0, 0. simpl.
    destruct (r <? mv_len _); simpl; rewrite !drop_0; repeat split; lia.
  - destruct (decide (length obj - start <= r)) as [Hfull|Hmore].
    + rewrite recv_all_into_loop_done by lia.
      exists 0, 0. simpl. rewrite !drop_0. repeat split; lia.
    + rewrite recv_all_into_loop_step by lia.
      unfold sock_recv. unfold mv_len; simpl mv_obj; simpl mv_start.
      remember (length obj - (start + r)) as n eqn:Hn.
      remember (match fragments sock with [] => n | c :: _ => max 1 c end) as cap.
      remember (take (n `min` cap) (incoming sock)) as data eqn:Hdata.
      assert (Hd : length data <= n).
      { subst data. rewrite length_take. lia. }
      destruct (IH (write_at obj (start + r) data) (start + r) (length data)
                  {| incoming := drop (length data) (incoming sock);
                     fragments := tail (fragments sock);
                     sent := sent sock; sockopts := sockopts sock;
                     timeout := timeout sock |})
        as (k & j & Hk & Hinc & Hfrag & Hsent & Hopts & Htime).
      { rewrite length_write_at by lia. lia. }
      rewrite length_write_at in Hk by lia.
      exists (length data + k), (S j).
      rewrite Hinc, Hfrag, Hsent, Hopts, Htime. simpl.
      rewrite drop_drop. repeat split; try lia.
      destruct (fragments sock); simpl; [rewrite !drop_nil|]; reflexivity.
Qed.

End ExactReadInvariants.

(** X2.  Whatever its outcome, [recv_all_into] takes from the stream a
    prefix of what it holds, never longer than the buffer; it writes
    nothing to the stream and changes neither its options nor its
    timeout. *)
Theorem recv_all_into_never_overreads (fuel : nat) (buf : list byte)
    (sock : socket) :
  exists k,
    k <= length buf
    /\ incoming (snd (recv_all_into fuel buf sock)) = drop k (incoming sock)
    /\ sent (snd (recv_all_into fuel buf sock)) = sent sock
    /\ sockopts (snd (recv_all_into fuel buf sock)) = sockopts sock
    /\ timeout (snd (recv_all_into fuel buf sock)) = timeout sock.
Proof.
  unfold recv_all_into.
  destruct (recv_all_into_loop_frame fuel buf 0 0 sock)
    as (k & j & Hk & Hinc & _ & Hsent & Hopts & Htime); [simpl; lia|].
  exists k. simpl in Hk. rewrite Nat.sub_0_r in Hk. auto.
Qed.

(** ** The entry of the call and the dial *)

(** X5.  Without a [proxy_address] keyword the call raises [KeyError]
    before it looks at the target: nothing is dialed, whatever the
    target is. *)
Theorem missing_proxy_address_is_key_error (fuel : nat) (address : value)
    (timeout source_address : option value) (kwargs : gmap string value)
    (w : world) :
  patched w = true ->
  kwargs !! "proxy_address" = None ->
  socks_proxy_create_connection fuel address timeout source_address kwargs w
  = (Raise (KeyError "proxy_address"), w).
Proof.
  intros Hpatched Hproxy. rewrite socks_proxy_create_connection_run.
  rewrite Hpatched, Hproxy. reflexivity.
Qed.

(** No keyword at all, and a target that is not even a sequence. *)
Lemma missing_proxy_address_is_key_error_witness :
  patched (proxy_world []) = true
  /\ (∅ : gmap string value) !! "proxy_address" = None
  /\ socks_proxy_create_connection 8 VNone None None ∅ (proxy_world [])
     = (Raise (KeyError "proxy_address"), proxy_world []).
Proof.
  assert (Hproxy : (∅ : gmap string value) !! "proxy_address" = None)
    by apply lookup_empty.
  exact (conj eq_refl (conj Hproxy
           (missing_proxy_address_is_key_error 8 VNone None None ∅
              (proxy_world []) eq_refl Hproxy))).
Defined.

(** X6.  A [proxy_address] that is [None] stops the call on its
    assertion, before the target is checked and before any dial. *)
Theorem none_proxy_address_is_assertion_error (fuel : nat) (address : value)
    (timeout source_address : option value) (kwargs : gmap string value)
    (w : world) :
  patched w = true ->
  kwargs !! "proxy_address" = Some VNone ->
  socks_proxy_create_connection fuel address timeout source_address kwargs w
  = (Raise AssertionError, w).
Proof.
  intros Hpatched Hproxy. rewrite socks_proxy_create_connection_run.
  rewrite Hpatched, Hproxy. reflexivity.
Qed.

Lemma none_proxy_address_is_assertion_error_witness :
  patched (proxy_world []) = true
  /\ ({[ "proxy_address" := VNone ]} : gmap string value) !! "proxy_address"
     = Some VNone
  /\ socks_proxy_create_connection 8 (VTuple [str "example.com"; VInt 80])
       None None {[ "proxy_address" := VNone ]} (proxy_world [])
     = (Raise AssertionError, proxy_world []).
Proof.
  assert (Hproxy : ({[ "proxy_address" := VNone ]} : gmap string value)
                     !! "proxy_address" = Some VNone)
    by apply lookup_singleton_eq.
  exact (conj eq_refl (conj Hproxy
           (none_proxy_address_is_assertion_error 8
              (VTuple [str "example.com"; VInt 80]) None None
              {[ "proxy_address" := VNone ]} (proxy_world [])
              eq_refl Hproxy))).
Defined.

Lemma make_proxy_kwargs_lookup (proxy_timeout proxy_source_address : value) :
  make_proxy_kwargs proxy_timeout proxy_source_address !! "timeout"
  = Some (if is_None proxy_timeout then DEFAULT_PROXY_TIMEOUT
          else proxy_timeout)
  /\ make_proxy_kwargs proxy_timeout proxy_source_address !! "source_address"
     = (if is_None proxy_source_address then None
        else Some proxy_source_address)
  /\ forall key : string,
       key <> "timeout" -> key <> "source_address" ->
       make_proxy_kwargs proxy_timeout proxy_source_address !! key = None.
Proof.
  unfold make_proxy_kwargs.
  destruct (is_None proxy_timeout), (is_None proxy_source_address);
    cbn [negb]; repeat split;
    repeat first
      [ rewrite lookup_insert_eq
      | rewrite lookup_insert_ne by (try discriminate; congruence)
      | rewrite lookup_empty ];
    try reflexivity;
    intros key H1 H2;
    repeat first
      [ rewrite lookup_insert_ne by congruence
      | rewrite lookup_empty ];
    reflexivity.
Qed.

(** X7.  A call that passes the checks of the entry dials the proxy
    exactly once, at [proxy_address], with a timeout that is
    [proxy_timeout] or 60.0 when that is absent or [None], with a source
    address only when [proxy_source_address] is given, and with no other
    option; the arguments [timeout] and [source_address] of the call have
    no part in it. *)
Theorem proxy_is_dialed_with_proxy_options (fuel : nat) (address : value)
    (timeout source_address : option value) (kwargs : gmap string value)
    (proxy_address : value) (w : world) :
  patched w = true ->
  kwargs !! "proxy_address" = Some proxy_address ->
  is_None proxy_address = false ->
  target_shape address ->
  exists proxy_kwargs : gmap string value,
    dials (snd (socks_proxy_create_connection fuel address timeout
                  source_address kwargs w))
    = dials w ++ [(proxy_address, proxy_kwargs)]
    /\ proxy_kwargs !! "timeout"
       = Some (if is_None (kwargs_get kwargs "proxy_timeout")
               then DEFAULT_PROXY_TIMEOUT
               else kwargs_get kwargs "proxy_timeout")
    /\ proxy_kwargs !! "source_address"
       = (if is_None (kwargs_get kwargs "proxy_source_address") then None
          else Some (kwargs_get kwargs "proxy_source_address"))
    /\ forall key : string,
         key <> "timeout" -> key <> "source_address" ->
         proxy_kwargs !! key = None.
Proof.
  intros Hpatched Hproxy Hnone Hshape.
  apply address_rejected_shape in Hshape.
  rewrite socks_proxy_create_connection_run.
  rewrite Hpatched, Hproxy, Hnone, Hshape. cbn [negb]. cbv zeta.
  exists (make_proxy_kwargs (kwargs_get kwargs "proxy_timeout")
            (kwargs_get kwargs "proxy_source_address")).
  split; [|apply make_proxy_kwargs_lookup].
  destruct (dialed_conn_io proxy_address
              (make_proxy_kwargs (kwargs_get kwargs "proxy_timeout")
                 (kwargs_get kwargs "proxy_source_address")) w)
    as (_ & _ & Hdials).
  destruct (reachable w); cbn [snd].
  - destruct (keepalive_on_io
                (dialed proxy_address
                   (make_proxy_kwargs (kwargs_get kwargs "proxy_timeout")
                      (kwargs_get kwargs "proxy_source_address")) w))
      as (_ & _ & Hdials').
    rewrite Hdials', Hdials. reflexivity.
  - exact Hdials.
Qed.

Lemma proxy_is_dialed_with_proxy_options_witness :
  patched (proxy_world []) = true
  /\ proxy_config !! "proxy_address" = Some local_proxy
  /\ is_None local_proxy = false
  /\ target_shape (VTuple [str "example.com"; VInt 80])
  /\ exists proxy_kwargs : gmap string value,
       dials (snd (socks_proxy_create_connection 8
                     (VTuple [str "example.com"; VInt 80])
                     (Some (VFloat 5 1)) (Some local_proxy) proxy_config
                     (proxy_world [])))
       = dials (proxy_world []) ++ [(local_proxy, proxy_kwargs)]
       /\ proxy_kwargs !! "timeout"
          = Some (if is_None (kwargs_get proxy_config "proxy_timeout")
                  then DEFAULT_PROXY_TIMEOUT
                  else kwargs_get proxy_config "proxy_timeout")
       /\ proxy_kwargs !! "source_address"
          = (if is_None (kwargs_get proxy_config "proxy_source_address")
             then None
             else Some (kwargs_get proxy_config "proxy_source_address"))
       /\ forall key : string,
            key <> "timeout" -> key <> "source_address" ->
            proxy_kwargs !! key = None.
Proof.
  assert (Hproxy : proxy_config !! "proxy_address" = Some local_proxy)
    by (vm_compute; reflexivity).
  assert (Hshape : target_shape (VTuple [str "example.com"; VInt 80])).
  { eexists _, _. split; [left; reflexivity|]. split; eauto. }
  exact (conj eq_refl (conj Hproxy (conj eq_refl (conj Hshape
           (proxy_is_dialed_with_proxy_options 8
              (VTuple [str "example.com"; VInt 80]) (Some (VFloat 5 1))
              (Some local_proxy) proxy_config local_proxy (proxy_world [])
              eq_refl Hproxy eq_refl Hshape))))).
Defined.

(** X8.  When the dial fails, its error comes out of the call as it is:
    the call has no handler; the stream is left as it was, keep-alive is
    not set and nothing is written. *)
Theorem dial_failure_propagates (fuel : nat) (address : value)
    (timeout source_address : option value) (kwargs : gmap string value)
    (proxy_address : value) (w : world) :
  patched w = true ->
  kwargs !! "proxy_address" = Some proxy_address ->
  is_None proxy_address = false ->
  target_shape address ->
  reachable w = false ->
  fst (socks_proxy_create_connection fuel address timeout source_address
         kwargs w) = Raise OSError
  /\ conn (snd (socks_proxy_create_connection fuel address timeout
                  source_address kwargs w)) = conn w.
Proof.
  intros Hpatched Hproxy Hnone Hshape Hreach.
  apply address_rejected_shape in Hshape.
  rewrite socks_proxy_create_connection_run.
  rewrite Hpatched, Hproxy, Hnone, Hshape, Hreach. cbn [negb]. cbv zeta.
  split; [reflexivity|]. cbn [snd].
  unfold dialed, original_create_connection. rewrite Hreach. reflexivity.
Qed.

Lemma dial_failure_propagates_witness :
  patched {| patched := true; reachable := false; dials := [];
             conn := stream [] [] |} = true
  /\ proxy_config !! "proxy_address" = Some local_proxy
  /\ is_None local_proxy = false
  /\ target_shape (VTuple [str "example.com"; VInt 80])
  /\ reachable {| patched := true; reachable := false; dials := [];
                  conn := stream [] [] |} = false
  /\ (fst (socks_proxy_create_connection 8
             (VTuple [str "example.com"; VInt 80]) None None proxy_config
             {| patched := true; reachable := false; dials := [];
                conn := stream [] [] |}) = Raise OSError
      /\ conn (snd (socks_proxy_create_connection 8
                      (VTuple [str "example.com"; VInt 80]) None None
                      proxy_config
                      {| patched := true; reachable := false; dials := [];
                         conn := stream [] [] |}))
         = conn {| patched := true; reachable := false; dials := [];
                   conn := stream [] [] |}).
Proof.
  assert (Hproxy : proxy_config !! "proxy_address" = Some local_proxy)
    by (vm_compute; reflexivity).
  assert (Hshape : target_shape (VTuple [str "example.com"; VInt 80])).
  { eexists _, _. split; [left; reflexivity|]. split; eauto. }
  exact (conj eq_refl (conj Hproxy (conj eq_refl (conj Hshape (conj eq_refl
           (dial_failure_propagates 8
              (VTuple [str "example.com"; VInt 80]) None None proxy_config
              local_proxy
              {| patched := true; reachable := false; dials := [];
                 conn := stream [] [] |}
              eq_refl Hproxy eq_refl Hshape eq_refl)))))).
Defined.

(** X9.  After a dial that succeeds, keep-alive is switched on on the
    stream, as its only new option, and the stream carries the timeout
    of the proxy ([proxy_timeout], or 60.0); this holds although the
    call then fails. *)
Theorem dialed_stream_has_keepalive (fuel : nat) (address : value)
    (post_timeout source_address : option value)
    (kwargs : gmap string value) (proxy_address : value) (w : world) :
  patched w = true ->
  kwargs !! "proxy_address" = Some proxy_address ->
  is_None proxy_address = false ->
  target_shape address ->
  reachable w = true ->
  sockopts (conn (snd (socks_proxy_create_connection fuel address
                         post_timeout source_address kwargs w)))
  = sockopts (conn w) ++ [("SOL_SOCKET", "SO_KEEPALIVE", 1%Z)]
  /\ timeout (conn (snd (socks_proxy_create_connection fuel address
                           post_timeout source_address kwargs w)))
     = (if is_None (kwargs_get kwargs "proxy_timeout")
        then DEFAULT_PROXY_TIMEOUT
        else kwargs_get kwargs "proxy_timeout").
Proof.
  intros Hpatched Hproxy Hnone Hshape Hreach.
  apply address_rejected_shape in Hshape.
  rewrite socks_proxy_create_connection_run.
  rewrite Hpatched, Hproxy, Hnone, Hshape, Hreach. cbn [negb]. cbv zeta.
  cbn [snd].
  destruct (make_proxy_kwargs_lookup (kwargs_get kwargs "proxy_timeout")
              (kwargs_get kwargs "proxy_source_address")) as (Htime & _).
  unfold keepalive_on, dialed, original_create_connection.
  rewrite Hreach, Htime. split; reflexivity.
Qed.

(** A proxy timeout of 2.5 and a timeout of 5.0 for the call. *)
Lemma dialed_stream_has_keepalive_witness :
  patched (proxy_world []) = true
  /\ (<[ "proxy_timeout" := VFloat 5 2 ]> proxy_config) !! "proxy_address"
     = Some local_proxy
  /\ is_None local_proxy = false
  /\ target_shape (VTuple [str "example.com"; VInt 80])
  /\ reachable (proxy_world []) = true
  /\ (sockopts (conn (snd (socks_proxy_create_connection 8
                             (VTuple [str "example.com"; VInt 80])
                             (Some (VFloat 5 1)) None
                             (<[ "proxy_timeout" := VFloat 5 2 ]> proxy_config)
                             (proxy_world []))))
      = sockopts (conn (proxy_world []))
        ++ [("SOL_SOCKET", "SO_KEEPALIVE", 1%Z)]
      /\ timeout (conn (snd (socks_proxy_create_connection 8
                               (VTuple [str "example.com"; VInt 80])
                               (Some (VFloat 5 1)) None
                               (<[ "proxy_timeout" := VFloat 5 2 ]>
                                  proxy_config)
                               (proxy_world []))))
         = (if is_None (kwargs_get
                          (<[ "proxy_timeout" := VFloat 5 2 ]> proxy_config)
                          "proxy_timeout")
            then DEFAULT_PROXY_TIMEOUT
            else kwargs_get
                   (<[ "proxy_timeout" := VFloat 5 2 ]> proxy_config)
                   "proxy_timeout")).
Proof.
  assert (Hproxy : (<[ "proxy_timeout" := VFloat 5 2 ]> proxy_config)
                     !! "proxy_address" = Some local_proxy)
    by (vm_compute; reflexivity).
  assert (Hshape : target_shape (VTuple [str "example.com"; VInt 80])).
  { eexists _, _. split; [left; reflexivity|]. split; eauto. }
  exact (conj eq_refl (conj Hproxy (conj eq_refl (conj Hshape (conj eq_refl
           (dialed_stream_has_keepalive 8
              (VTuple [str "example.com"; VInt 80]) (Some (VFloat 5 1)) None
              (<[ "proxy_timeout" := VFloat 5 2 ]> proxy_config) local_proxy
              (proxy_world []) eq_refl Hproxy eq_refl Hshape eq_refl)))))).
Defined.

Example dialed_stream_timeout_2_5 :
  timeout (conn (snd (socks_proxy_create_connection 8
                        (VTuple [str "example.com"; VInt 80])
                        (Some (VFloat 5 1)) None
                        (<[ "proxy_timeout" := VFloat 5 2 ]> proxy_config)
                        (proxy_world []))))
  = VFloat 5 2.
Proof. vm_compute. reflexivity. Qed.

(** ** The errors of the call *)

(** X10.  Every run of the call ends with an error, whatever the fuel
    and whatever the proxy sends, and the error is one of five: the
    assertion error of the entry, the key error, the argument error, the
    error of the dial, or the [struct.error] of the greeting format. *)
Theorem connect_outcomes (fuel : nat) (address : value)
    (timeout source_address : option value) (kwargs : gmap string value)
    (w : world) :
  exists e,
    fst (socks_proxy_create_connection fuel address timeout source_address
           kwargs w) = Raise e
    /\ In e [AssertionError; KeyError "proxy_address";
             ArgSocksProxyError
               "address of connection must be tuple: hostname (str) and port (int)";
             OSError; StructError BadChar].
Proof.
  rewrite socks_proxy_create_connection_run.
  destruct (patched w); cbn [negb];
    [|eexists; split; [reflexivity|simpl; tauto]].
  destruct (kwargs !! "proxy_address") as [proxy_address|];
    [|eexists; split; [reflexivity|simpl; tauto]].
  destruct (is_None proxy_address);
    [eexists; split; [reflexivity|simpl; tauto]|].
  destruct (address_rejected address);
    [eexists; split; [reflexivity|simpl; tauto]|].
  cbv zeta.
  destruct (reachable w); eexists; (split; [reflexivity|simpl; tauto]).
Qed.

(** X11.  A handler for [SocksProxyError] sees one error only, the
    argument error of the entry, raised before anything is dialed: the
    other failures of the call are not errors of the module. *)
Theorem only_argument_error_is_a_socks_error (fuel : nat) (address : value)
    (timeout source_address : option value) (kwargs : gmap string value)
    (w : world) (e : exn) :
  fst (socks_proxy_create_connection fuel address timeout source_address
         kwargs w) = Raise e ->
  isinstance_SocksProxyError e = true ->
  e = ArgSocksProxyError
        "address of connection must be tuple: hostname (str) and port (int)"
  /\ snd (socks_proxy_create_connection fuel address timeout source_address
            kwargs w) = w
  /\ ~ target_shape address.
Proof.
  rewrite socks_proxy_create_connection_run.
  destruct (patched w); cbn [negb];
    [|intros He Hi; inversion He; subst e; discriminate].
  destruct (kwargs !! "proxy_address") as [proxy_address|];
    [|intros He Hi; inversion He; subst e; discriminate].
  destruct (is_None proxy_address);
    [intros He Hi; inversion He; subst e; discriminate|].
  destruct (address_rejected address) eqn:Hrej.
  - intros He _. inversion He. repeat split.
    intros Hshape. apply address_rejected_shape in Hshape. congruence.
  - cbv zeta.
    destruct (reachable w); intros He Hi; inversion He; subst e; discriminate.
Qed.

Lemma only_argument_error_is_a_socks_error_witness :
  fst (socks_proxy_create_connection 8 (VTuple [str "example.com"])
         None None proxy_config (proxy_world []))
  = Raise (ArgSocksProxyError
      "address of connection must be tuple: hostname (str) and port (int)")
  /\ isinstance_SocksProxyError
       (ArgSocksProxyError
          "address of connection must be tuple: hostname (str) and port (int)")
     = true
  /\ (ArgSocksProxyError
        "address of connection must be tuple: hostname (str) and port (int)"
      = ArgSocksProxyError
          "address of connection must be tuple: hostname (str) and port (int)"
      /\ snd (socks_proxy_create_connection 8 (VTuple [str "example.com"])
                None None proxy_config (proxy_world []))
         = proxy_world []
      /\ ~ target_shape (VTuple [str "example.com"])).
Proof.
  assert (Hrun : fst (socks_proxy_create_connection 8
                        (VTuple [str "example.com"]) None None proxy_config
                        (proxy_world []))
                 = Raise (ArgSocksProxyError
      "address of connection must be tuple: hostname (str) and port (int)"))
    by (vm_compute; reflexivity).
  exact (conj Hrun (conj eq_refl
           (only_argument_error_is_a_socks_error 8
              (VTuple [str "example.com"]) None None proxy_config
              (proxy_world []) _ Hrun eq_refl))).
Defined.

(** ** The command phase *)

(** X12.  The assertions that open the command phase (lines 108-110)
    never fail on a target that the entry has accepted, whatever the
    formats are: the phase ends by sending, or with an error of the
    encoding or of [struct]. *)
Theorem command_phase_assertions_hold (fm : formats) (address : value)
    (sock : socket) :
  target_shape address ->
  fst (command_request_with fm address sock) <> Raise AssertionError.
Proof.
  intros (host & port & Hshape & (s & Hs) & Hport). subst host.
  assert (Hint : isinstance_int port = true)
    by (destruct Hport as [(z & ->) | (b & ->)]; reflexivity).
  assert (Hrun : command_request_with fm address sock
    = (let! host_bytes := pure (str_encode (VStr s)) in
       let! head := pure (struct_pack (request_fmt fm)
                            [VInt 0x05; VInt 0x01; VInt 0x00; VInt 0x03;
                             VInt (Z.of_nat (length host_bytes))]) in
       let! port := pure (struct_pack "!H" [port]) in
       sock_sendall (head ++ host_bytes ++ port)) sock).
  { unfold command_request_with.
    destruct Hshape as [-> | ->];
      unfold bind at 1; cbn [py_len pure length Nat.eqb py_assert ret];
      unfold bind at 1; cbn [py_assert ret];
      unfold bind at 1; cbn [py_getitem pure lookup list_lookup ret];
      unfold bind at 1; cbn [py_assert isinstance_str ret];
      unfold bind at 1; cbn [py_getitem pure lookup list_lookup ret];
      unfold bind at 1; rewrite Hint; cbn [py_assert ret];
      reflexivity. }
  rewrite Hrun. unfold bind, pure, str_encode.
  destruct (utf8_encode s) as [bs|]; [|simpl; discriminate].
  cbv beta iota delta [ret].
  destruct (struct_pack (request_fmt fm) _) as [e|head] eqn:Hhead.
  - apply struct_pack_error in Hhead. destruct Hhead as [why ->].
    simpl. discriminate.
  - cbv beta iota delta [ret].
    destruct (struct_pack "!H" [port]) as [e|pb] eqn:Hport'.
    + apply struct_pack_error in Hport'. destruct Hport' as [why ->].
      simpl. discriminate.
    + simpl. discriminate.
Qed.

Lemma command_phase_assertions_hold_witness :
  target_shape (VList [str "example.com"; VBool true])
  /\ fst (command_request_with single_mark_formats
            (VList [str "example.com"; VBool true]) (stream [] []))
     <> Raise AssertionError.
Proof.
  assert (Hshape : target_shape (VList [str "example.com"; VBool true])).
  { eexists _, _. split; [right; reflexivity|]. split; eauto. }
  exact (conj Hshape
           (command_phase_assertions_hold single_mark_formats
              (VList [str "example.com"; VBool true]) (stream [] [])
              Hshape)).
Defined.

Lemma utf8_encode_surrogate (s : list N) (c : N) :
  In c s -> (0xD800 <= c <= 0xDFFF)%N -> utf8_encode s = None.
Proof.
  intros Hin Hc. induction s as [|d s IH]; [destruct Hin|].
  simpl. destruct Hin as [-> | Hin].
  - assert (Hp : utf8_encode_point c = None).
    { unfold utf8_encode_point.
      destruct (N.ltb_spec c 0x80); [lia|].
      destruct (N.ltb_spec c 0x800); [lia|].
      destruct (N.ltb_spec c 0x10000); [|lia].
      destruct (N.leb_spec 0xD800 c); [|lia].
      destruct (N.leb_spec c 0xDFFF); [|lia].
      reflexivity. }
    rewrite Hp. reflexivity.
  - rewrite (IH Hin). destruct (utf8_encode_point d); reflexivity.
Qed.

(** X13.  A host name that holds a surrogate code point cannot be
    encoded: the command phase raises [UnicodeEncodeError] on line 112,
    before anything is packed, and writes nothing, whatever the formats
    are. *)
Theorem surrogate_host_is_encode_error (fm : formats) (host : list N)
    (c : N) (port : Z) (sock : socket) :
  In c host ->
  (0xD800 <= c <= 0xDFFF)%N ->
  command_request_with fm (VTuple [VStr host; VInt port]) sock
  = (Raise UnicodeEncodeError, sock).
Proof.
  intros Hin Hc.
  unfold command_request_with, bind, pure, py_assert, str_encode. simpl.
  rewrite (utf8_encode_surrogate host c Hin Hc). reflexivity.
Qed.

(** The host name [a], U+D800, [b], at the formats of the source. *)
Lemma surrogate_host_is_encode_error_witness :
  In 0xD800%N [97; 0xD800; 98]%N
  /\ (0xD800 <= 0xD800 <= 0xDFFF)%N
  /\ command_request (VTuple [VStr [97; 0xD800; 98]%N; VInt 80])
       (stream [] [])
     = (Raise UnicodeEncodeError, stream [] []).
Proof.
  assert (Hin : In 0xD800%N [97; 0xD800; 98]%N) by (right; left; reflexivity).
  assert (Hc : (0xD800 <= 0xD800 <= 0xDFFF)%N)
    by (split; discriminate).
  exact (conj Hin (conj Hc
           (surrogate_host_is_encode_error source_formats
              [97; 0xD800; 98]%N 0xD800%N 80 (stream [] []) Hin Hc))).
Defined.

(** ** The status table *)

Lemma error_descr_pairwise :
  forallb (fun i =>
    forallb (fun j =>
      implb (String.eqb (error_descr (Z.of_nat i)) (error_descr (Z.of_nat j)))
            (i =? j))
      (seq 0 256))
    (seq 0 256) = true.
Proof. vm_compute. reflexivity. Qed.

(** X14.  The description of a status names it: two different status
    bytes never have the same description, so the message of
    [ConnectSocksProxyError] tells which status the proxy sent. *)
Theorem error_descr_injective (s1 s2 : Z) :
  (0 <= s1 <= 255)%Z ->
  (0 <= s2 <= 255)%Z ->
  s1 <> s2 ->
  error_descr s1 <> error_descr s2.
Proof.
  intros H1 H2 Hne Heq. apply Hne.
  pose proof error_descr_pairwise as Hall.
  rewrite forallb_forall in Hall.
  assert (Hin1 : In (Z.to_nat s1) (seq 0 256)) by (apply in_seq; lia).
  assert (Hin2 : In (Z.to_nat s2) (seq 0 256)) by (apply in_seq; lia).
  specialize (Hall (Z.to_nat s1) Hin1).
  rewrite forallb_forall in Hall.
  specialize (Hall (Z.to_nat s2) Hin2).
  rewrite !Z2Nat.id in Hall by lia.
  rewrite Heq, String.eqb_refl in Hall. simpl in Hall.
  apply Nat.eqb_eq in Hall. lia.
Qed.

(** Connection refused (5) and an unknown status (255). *)
Lemma error_descr_injective_witness :
  (0 <= 5 <= 255)%Z
  /\ (0 <= 255 <= 255)%Z
  /\ 5%Z <> 255%Z
  /\ error_descr 5 <> error_descr 255.
Proof.
  assert (H1 : (0 <= 5 <= 255)%Z) by (split; discriminate).
  assert (H2 : (0 <= 255 <= 255)%Z) by (split; discriminate).
  assert (Hne : 5%Z <> 255%Z) by discriminate.
  exact (conj H1 (conj H2 (conj Hne
           (error_descr_injective 5 255 H1 H2 Hne)))).
Defined.

(** ** The port on the wire *)

Lemma Z_of_byte_of_Z_mod (z : Z) : Z_of_byte (byte_of_Z z) = (z mod 256)%Z.
Proof.
  assert (Hmod : (0 <= z mod 256 < 256)%Z) by (apply Z.mod_pos_bound; lia).
  rewrite <- (Z_of_byte_of_Z (z mod 256)) by lia.
  unfold byte_of_Z. rewrite Z.mod_mod by lia. reflexivity.
Qed.

Lemma port_out_of_range_refused (port : Z) :
  (port < 0 \/ 65535 < port)%Z ->
  struct_pack "!H" [VInt port] = inl (StructError OutOfRange).
Proof.
  intros Hout. unfold struct_pack. simpl. unfold pack_one. simpl.
  destruct Hout as [Hneg | Hbig].
  - destruct (Z.leb_spec 0 port); [lia|]. reflexivity.
  - destruct (Z.leb_spec port 65535); [lia|].
    rewrite andb_false_r. reflexivity.
Qed.

(** X15.  A port in 0..65535 is packed with ['!H'] on two bytes, high
    byte first, and unpacking those two bytes with ['!H'] gives the port
    back. *)
Theorem port_round_trip (port : Z) :
  (0 <= port <= 65535)%Z ->
  exists hi lo,
    struct_pack "!H" [VInt port] = inr [hi; lo]
    /\ Z_of_byte hi = (port / 256)%Z
    /\ Z_of_byte lo = (port mod 256)%Z
    /\ struct_unpack "!H" [hi; lo] = inr [port].
Proof.
  intros Hport.
  exists (byte_of_Z (port / 256)), (byte_of_Z port).
  assert (Hhi : Z_of_byte (byte_of_Z (port / 256)) = (port / 256)%Z).
  { apply Z_of_byte_of_Z. split.
    - apply Z.div_pos; lia.
    - apply Z.lt_succ_r. apply Z.div_lt_upper_bound; lia. }
  assert (Hlo : Z_of_byte (byte_of_Z port) = (port mod 256)%Z)
    by apply Z_of_byte_of_Z_mod.
  split; [apply pack_port_format; assumption|].
  split; [exact Hhi|]. split; [exact Hlo|].
  unfold struct_unpack. simpl. rewrite Hhi, Hlo.
  f_equal. f_equal. pose proof (Z.div_mod port 256). lia.
Qed.

(** Port 8080 is [1f 90]. *)
Lemma port_round_trip_witness :
  (0 <= 8080 <= 65535)%Z
  /\ exists hi lo,
       struct_pack "!H" [VInt 8080] = inr [hi; lo]
       /\ Z_of_byte hi = (8080 / 256)%Z
       /\ Z_of_byte lo = (8080 mod 256)%Z
       /\ struct_unpack "!H" [hi; lo] = inr [8080%Z].
Proof.
  assert (H : (0 <= 8080 <= 65535)%Z) by (split; discriminate).
  exact (conj H (port_round_trip 8080 H)).
Defined.

Example port_8080_on_the_wire :
  struct_pack "!H" [VInt 8080] = inr [x1f; x90]
  /\ struct_unpack "!H" [x1f; x90] = inr [8080%Z].
Proof. split; reflexivity. Qed.
